(** * SenseBridge: the state wiring of [App.tsx]

    A shallow embedding of the React component [App] of [src/App.tsx]:
    its [useState] cells as one record, its handlers as functions on that
    record that also return the external effects they perform, and the
    browser around it (promises in flight, timers, the clock, the UUID
    source) as a labelled transition system.

    Conventions.
    - A JavaScript string is its list of UTF-16 code units.
    - A JavaScript [number] that the code computes with
      ([Math.random() - 0.5], the motion readings) is an exact rational;
      a [number] received from the analysis service may also be [NaN] or
      an infinity.
    - [string | null] cells are [option]s; [x ? a : b] and [!x] on them
      follow JavaScript truthiness (the empty string is falsy).
    - A handler started by the user reads the state as it is when the
      event arrives: every update is rendered before the next event. The
      continuation of an [await] keeps the values its handler read.
    - Time is the wall clock in milliseconds. It does not run backwards,
      and a [setTimeout] callback runs at the instant it falls due. *)

From Stdlib Require Import ZArith QArith List Sorted String Ascii Lia Lqa.
From stdpp Require Import base list.

Local Open Scope Z_scope.

(** ** Strings *)

Module JS.

Definition codeunit := N.
Definition str := list codeunit.

(** A source literal, as its code units. *)
Definition lit (s : string) : str :=
  map N_of_ascii (list_ascii_of_string s).

(** ECMAScript [WhiteSpace] and [LineTerminator] code points: what
    [String.prototype.trim] strips. *)
Definition isWhiteSpace (c : codeunit) : bool :=
  existsb (N.eqb c)
    [ 0x09; 0x0A; 0x0B; 0x0C; 0x0D; 0x20; 0xA0; 0x1680;
      0x2000; 0x2001; 0x2002; 0x2003; 0x2004; 0x2005; 0x2006;
      0x2007; 0x2008; 0x2009; 0x200A;
      0x2028; 0x2029; 0x202F; 0x205F; 0x3000; 0xFEFF ]%N.

Fixpoint trimStart (s : str) : str :=
  match s with
  | [] => []
  | c :: r => if isWhiteSpace c then trimStart r else s
  end.

Definition trimEnd (s : str) : str := rev (trimStart (rev s)).

Definition trim (s : str) : str := trimEnd (trimStart s).

(** Truthiness of a string: non-empty. *)
Definition truthy (s : str) : bool :=
  match s with [] => false | _ :: _ => true end.

(** Truthiness of a [string | null]. *)
Definition truthy_opt (o : option str) : bool :=
  match o with Some s => truthy s | None => false end.

(** [s.split(',')[1]]: the text between the first comma and the next
    one (or the end); [undefined], here [None], when [s] has no comma. *)
Fixpoint upto_comma (s : str) : str :=
  match s with
  | [] => []
  | c :: r => if N.eqb c 0x2C then [] else c :: upto_comma r
  end.

Fixpoint split_comma_1 (s : str) : option str :=
  match s with
  | [] => None
  | c :: r => if N.eqb c 0x2C then Some (upto_comma r) else split_comma_1 r
  end.

(** A [number]: a finite value, or one of the three IEEE specials. *)
Inductive number :=
| Finite (q : Q)
| PosInfinity
| NegInfinity
| NaN.

(** [a >= k] for a finite constant [k]; every comparison with [NaN]
    is false. *)
Definition ge (a : number) (k : Q) : bool :=
  match a with
  | Finite q => Qle_bool k q
  | PosInfinity => true
  | NegInfinity => false
  | NaN => false
  end.

End JS.

(** ** Data model ([./types], as [App.tsx] uses it) *)

Record Vec3 := { x : Q; y : Q; z : Q }.

Record MotionData := { accel : Vec3; gyro : Vec3 }.

(** Modelled from the spec: [ExplorationAnalysisResult] is declared in
    [./types], which is not part of the sources; its fields are the ones
    section 3 of the specification lists and the JSX of [App.tsx] reads. *)
Record ExplorationAnalysisResult := {
  environment_type : JS.str;
  terrain_summary : JS.str;
  location_estimation : JS.str;
  confidence : JS.number;
  safety_score : JS.number;
  bio_clues : list JS.str;
  acoustic_clues : list JS.str;
  structural_notes : JS.str;
  solo_traveler_advice : JS.str;
  navigation_hint : JS.str;
  recommended_actions : list JS.str
}.

(** Modelled from the spec: [QueryResult] of [./types]: an answer and its
    reasoning. *)
Record QueryResult := { answer : JS.str; reasoning : JS.str }.

(** [crypto.randomUUID()] yields the text of a 128-bit value; the value
    stands for the text. *)
Definition UUID := N.

(** An instant, in milliseconds since the epoch. [toISOString] renders
    it; the rendering is not modelled. *)
Definition Instant := Z.

(** [{ ...result, id, timestamp, imageFrameUrl, audioTranscript }]: the
    four named fields are written after the spread, so they are the
    entry's own whatever [result] holds. *)
Record ExplorationLogEntry := {
  entry_result : ExplorationAnalysisResult;
  id : UUID;
  timestamp : Instant;
  imageFrameUrl : option JS.str;
  audioTranscript : option JS.str
}.

(** ** Constants *)

Definition INITIAL_MOTION : MotionData :=
  {| accel := {| x := 0.02; y := 9.81; z := 0.05 |};
     gyro := {| x := 0.01; y := 0.00; z := 0.01 |} |}.

Definition ANALYSIS_STEPS : list JS.str :=
  [ JS.lit "Mapping Visual Terrain...";
    JS.lit "Analyzing Acoustic Profile...";
    JS.lit "Integrating Sensor Data...";
    JS.lit "Triangulating Geo-Location...";
    JS.lit "Assessing Traveler Safety...";
    JS.lit "Synthesizing Exploration Insights..." ].

Definition MSG_NO_INPUT : JS.str :=
  JS.lit "Please provide at least Visual or Audio input to analyze.".

Definition MSG_ANALYZE_FAILED : JS.str :=
  JS.lit "Failed to analyze environment. Please try again.".

Definition MSG_MIC_DENIED : JS.str := JS.lit "Microphone access denied.".

(** ** Safety banding *)

Definition getSafetyColor (score : JS.number) : JS.str :=
  if JS.ge score 80 then JS.lit "text-emerald-400"
  else if JS.ge score 50 then JS.lit "text-yellow-400"
  else JS.lit "text-red-400".

Definition getSafetyBg (score : JS.number) : JS.str :=
  if JS.ge score 80 then JS.lit "bg-emerald-500/10 border-emerald-500/20"
  else if JS.ge score 50 then JS.lit "bg-yellow-500/10 border-yellow-500/20"
  else JS.lit "bg-red-500/10 border-red-500/20".

(** The three bands of the specification and the classes that show them. *)
Inductive Band := Favorable | Cautionary | Unfavorable.

Definition colorOf (b : Band) : JS.str :=
  match b with
  | Favorable => JS.lit "text-emerald-400"
  | Cautionary => JS.lit "text-yellow-400"
  | Unfavorable => JS.lit "text-red-400"
  end.

Definition bgOf (b : Band) : JS.str :=
  match b with
  | Favorable => JS.lit "bg-emerald-500/10 border-emerald-500/20"
  | Cautionary => JS.lit "bg-yellow-500/10 border-yellow-500/20"
  | Unfavorable => JS.lit "bg-red-500/10 border-red-500/20"
  end.

(** The bands as section 8 of the specification draws them on [0,100]. *)
Definition in_band (b : Band) (q : Q) : Prop :=
  match b with
  | Favorable => (80 <= q /\ q <= 100)%Q
  | Cautionary => (50 <= q /\ q < 80)%Q
  | Unfavorable => (0 <= q /\ q < 50)%Q
  end.

(** ** The component's state: one field per [useState] cell *)

Record State := {
  showLanding : bool;
  currentFrame : option JS.str;
  isRecording : bool;
  transcribedAudio : option JS.str;
  motionData : MotionData;
  isAnalyzing : bool;
  loadingText : JS.str;
  currentAnalysis : option ExplorationAnalysisResult;
  explorationLog : list ExplorationLogEntry;
  error : option JS.str;
  userQuery : JS.str;
  isQuerying : bool;
  queryResult : option QueryResult
}.

(** The initial values of the [useState] calls. *)
Definition initialState : State :=
  {| showLanding := true;
     currentFrame := None;
     isRecording := false;
     transcribedAudio := None;
     motionData := INITIAL_MOTION;
     isAnalyzing := false;
     loadingText := JS.lit "Initializing...";
     currentAnalysis := None;
     explorationLog := [];
     error := None;
     userQuery := [];
     isQuerying := false;
     queryResult := None |}.

(** The setters. *)

Definition setShowLanding (v : bool) (s : State) : State :=
  {| showLanding := v; currentFrame := currentFrame s;
     isRecording := isRecording s; transcribedAudio := transcribedAudio s;
     motionData := motionData s; isAnalyzing := isAnalyzing s;
     loadingText := loadingText s; currentAnalysis := currentAnalysis s;
     explorationLog := explorationLog s; error := error s;
     userQuery := userQuery s; isQuerying := isQuerying s;
     queryResult := queryResult s |}.

Definition setCurrentFrame (v : option JS.str) (s : State) : State :=
  {| showLanding := showLanding s; currentFrame := v;
     isRecording := isRecording s; transcribedAudio := transcribedAudio s;
     motionData := motionData s; isAnalyzing := isAnalyzing s;
     loadingText := loadingText s; currentAnalysis := currentAnalysis s;
     explorationLog := explorationLog s; error := error s;
     userQuery := userQuery s; isQuerying := isQuerying s;
     queryResult := queryResult s |}.

Definition setIsRecording (v : bool) (s : State) : State :=
  {| showLanding := showLanding s; currentFrame := currentFrame s;
     isRecording := v; transcribedAudio := transcribedAudio s;
     motionData := motionData s; isAnalyzing := isAnalyzing s;
     loadingText := loadingText s; currentAnalysis := currentAnalysis s;
     explorationLog := explorationLog s; error := error s;
     userQuery := userQuery s; isQuerying := isQuerying s;
     queryResult := queryResult s |}.

Definition setTranscribedAudio (v : option JS.str) (s : State) : State :=
  {| showLanding := showLanding s; currentFrame := currentFrame s;
     isRecording := isRecording s; transcribedAudio := v;
     motionData := motionData s; isAnalyzing := isAnalyzing s;
     loadingText := loadingText s; currentAnalysis := currentAnalysis s;
     explorationLog := explorationLog s; error := error s;
     userQuery := userQuery s; isQuerying := isQuerying s;
     queryResult := queryResult s |}.

Definition setMotionData (v : MotionData) (s : State) : State :=
  {| showLanding := showLanding s; currentFrame := currentFrame s;
     isRecording := isRecording s; transcribedAudio := transcribedAudio s;
     motionData := v; isAnalyzing := isAnalyzing s;
     loadingText := loadingText s; currentAnalysis := currentAnalysis s;
     explorationLog := explorationLog s; error := error s;
     userQuery := userQuery s; isQuerying := isQuerying s;
     queryResult := queryResult s |}.

Definition setIsAnalyzing (v : bool) (s : State) : State :=
  {| showLanding := showLanding s; currentFrame := currentFrame s;
     isRecording := isRecording s; transcribedAudio := transcribedAudio s;
     motionData := motionData s; isAnalyzing := v;
     loadingText := loadingText s; currentAnalysis := currentAnalysis s;
     explorationLog := explorationLog s; error := error s;
     userQuery := userQuery s; isQuerying := isQuerying s;
     queryResult := queryResult s |}.

Definition setLoadingText (v : JS.str) (s : State) : State :=
  {| showLanding := showLanding s; currentFrame := currentFrame s;
     isRecording := isRecording s; transcribedAudio := transcribedAudio s;
     motionData := motionData s; isAnalyzing := isAnalyzing s;
     loadingText := v; currentAnalysis := currentAnalysis s;
     explorationLog := explorationLog s; error := error s;
     userQuery := userQuery s; isQuerying := isQuerying s;
     queryResult := queryResult s |}.

Definition setCurrentAnalysis (v : option ExplorationAnalysisResult)
    (s : State) : State :=
  {| showLanding := showLanding s; currentFrame := currentFrame s;
     isRecording := isRecording s; transcribedAudio := transcribedAudio s;
     motionData := motionData s; isAnalyzing := isAnalyzing s;
     loadingText := loadingText s; currentAnalysis := v;
     explorationLog := explorationLog s; error := error s;
     userQuery := userQuery s; isQuerying := isQuerying s;
     queryResult := queryResult s |}.

(** [setExplorationLog] is only ever called with an updater function. *)
Definition setExplorationLog
    (f : list ExplorationLogEntry -> list ExplorationLogEntry)
    (s : State) : State :=
  {| showLanding := showLanding s; currentFrame := currentFrame s;
     isRecording := isRecording s; transcribedAudio := transcribedAudio s;
     motionData := motionData s; isAnalyzing := isAnalyzing s;
     loadingText := loadingText s; currentAnalysis := currentAnalysis s;
     explorationLog := f (explorationLog s); error := error s;
     userQuery := userQuery s; isQuerying := isQuerying s;
     queryResult := queryResult s |}.

Definition setError (v : option JS.str) (s : State) : State :=
  {| showLanding := showLanding s; currentFrame := currentFrame s;
     isRecording := isRecording s; transcribedAudio := transcribedAudio s;
     motionData := motionData s; isAnalyzing := isAnalyzing s;
     loadingText := loadingText s; currentAnalysis := currentAnalysis s;
     explorationLog := explorationLog s; error := v;
     userQuery := userQuery s; isQuerying := isQuerying s;
     queryResult := queryResult s |}.

Definition setUserQuery (v : JS.str) (s : State) : State :=
  {| showLanding := showLanding s; currentFrame := currentFrame s;
     isRecording := isRecording s; transcribedAudio := transcribedAudio s;
     motionData := motionData s; isAnalyzing := isAnalyzing s;
     loadingText := loadingText s; currentAnalysis := currentAnalysis s;
     explorationLog := explorationLog s; error := error s;
     userQuery := v; isQuerying := isQuerying s;
     queryResult := queryResult s |}.

Definition setIsQuerying (v : bool) (s : State) : State :=
  {| showLanding := showLanding s; currentFrame := currentFrame s;
     isRecording := isRecording s; transcribedAudio := transcribedAudio s;
     motionData := motionData s; isAnalyzing := isAnalyzing s;
     loadingText := loadingText s; currentAnalysis := currentAnalysis s;
     explorationLog := explorationLog s; error := error s;
     userQuery := userQuery s; isQuerying := v;
     queryResult := queryResult s |}.

Definition setQueryResult (v : option QueryResult) (s : State) : State :=
  {| showLanding := showLanding s; currentFrame := currentFrame s;
     isRecording := isRecording s; transcribedAudio := transcribedAudio s;
     motionData := motionData s; isAnalyzing := isAnalyzing s;
     loadingText := loadingText s; currentAnalysis := currentAnalysis s;
     explorationLog := explorationLog s; error := error s;
     userQuery := userQuery s; isQuerying := isQuerying s;
     queryResult := v |}.

(** ** Handlers

    A handler maps the state it was created over to the state after its
    synchronous part, together with the effects it performed, in order.
    An [async] handler is cut at its [await]: the part before it, and one
    function per way the awaited promise settles. *)

Inductive Effect :=
| AnalyzeEnvironment (imageBase64 transcript : option JS.str)
    (motion : MotionData)
| AskSenseBridge (question : JS.str) (context : ExplorationAnalysisResult)
| GetUserMedia
| RecorderStart
| RecorderStop
| SetTimeout (ms : Z)
| SetInterval (ms : Z)
| ClearInterval
| ConsoleError.

Definition handleLaunch (s : State) : State := setShowLanding false s.

(** [reader.onloadend] of [handleImageUpload]. *)
Definition handleImageUpload_loaded (result : JS.str) (s : State) : State :=
  let s := setCurrentFrame (Some result) s in
  let s := setCurrentAnalysis None s in
  setQueryResult None s.

(** [startRecording], before [await getUserMedia]. *)
Definition startRecording (s : State) : State * list Effect :=
  (s, [GetUserMedia]).

(** [startRecording], once the stream is there. *)
Definition startRecording_granted (s : State) : State * list Effect :=
  (setIsRecording true s, [RecorderStart]).

(** [startRecording], its [catch]. *)
Definition startRecording_denied (s : State) : State :=
  setError (Some MSG_MIC_DENIED) s.

(** [stopRecording]; [recording] says whether [mediaRecorderRef.current]
    is set and its state is ['recording']. *)
Definition stopRecording (recording : bool) (s : State)
    : State * list Effect :=
  if recording then (setIsRecording false s, [RecorderStop]) else (s, []).

(** [reader.onloadend] of the recorder's [onstop], after
    [await transcribeAudio]. *)
Definition onTranscribed (transcript : JS.str) (s : State) : State :=
  setTranscribedAudio (Some transcript) s.

(** The six [Math.random()] results of one [simulateMotion], in the
    order the object literal evaluates them. *)
Record Draws := {
  r_ax : Q; r_ay : Q; r_az : Q;
  r_gx : Q; r_gy : Q; r_gz : Q
}.

Definition newMotion (r : Draws) : MotionData :=
  {| accel := {| x := (r_ax r - 0.5) * 8;
                 y := 9.81 + (r_ay r - 0.5) * 5;
                 z := (r_az r - 0.5) * 8 |};
     gyro := {| x := (r_gx r - 0.5) * 2;
                y := (r_gy r - 0.5) * 2;
                z := (r_gz r - 0.5) * 2 |} |}.

Definition simulateMotion (r : Draws) (s : State) : State * list Effect :=
  (setMotionData (newMotion r) s, [SetTimeout 3000]).

(** The callback [simulateMotion] hands to [setTimeout]. *)
Definition motionReset (s : State) : State := setMotionData INITIAL_MOTION s.

(** What the continuation of [handleAnalyze] still reads from the render
    it was created in. *)
Record AnalyzeClosure := {
  cl_currentFrame : option JS.str;
  cl_transcribedAudio : option JS.str
}.

(** [currentFrame ? currentFrame.split(',')[1] : null]. *)
Definition imageBase64_of (frame : option JS.str) : option JS.str :=
  match frame with
  | Some f => if JS.truthy f then JS.split_comma_1 f else None
  | None => None
  end.

(** [handleAnalyze], up to [await analyzeEnvironment(...)]. *)
Definition handleAnalyze (s : State) : State * list Effect :=
  if negb (JS.truthy_opt (currentFrame s))
     && negb (JS.truthy_opt (transcribedAudio s))
  then (setError (Some MSG_NO_INPUT) s, [])
  else
    let s1 := setError None s in
    let s1 := setIsAnalyzing true s1 in
    let s1 := setQueryResult None s1 in
    let s1 := setLoadingText (nth 0 ANALYSIS_STEPS []) s1 in
    (s1, [ SetInterval 1500;
           AnalyzeEnvironment (imageBase64_of (currentFrame s))
             (transcribedAudio s) (motionData s) ]).

(** The callback of [stepInterval]; [stepIndex] is the handler's local. *)
Definition stepInterval_tick (stepIndex : nat) (s : State) : nat * State :=
  let stepIndex := ((stepIndex + 1) mod length ANALYSIS_STEPS)%nat in
  (stepIndex, setLoadingText (nth stepIndex ANALYSIS_STEPS []) s).

(** [handleAnalyze], from the fulfilled promise to the end of [finally];
    [uuid] is what [crypto.randomUUID()] returns and [date] what
    [new Date()] reads. *)
Definition handleAnalyze_resolved (cl : AnalyzeClosure)
    (result : ExplorationAnalysisResult) (uuid : UUID) (date : Instant)
    (s : State) : State * list Effect :=
  let s := setCurrentAnalysis (Some result) s in
  let newLog :=
    {| entry_result := result;
       id := uuid;
       timestamp := date;
       imageFrameUrl := cl_currentFrame cl;
       audioTranscript := cl_transcribedAudio cl |} in
  let s := setExplorationLog (fun prev => newLog :: prev) s in
  (setIsAnalyzing false s, [ClearInterval]).

(** [handleAnalyze], from the rejected promise: [catch], then [finally]. *)
Definition handleAnalyze_rejected (s : State) : State * list Effect :=
  let s := setError (Some MSG_ANALYZE_FAILED) s in
  (setIsAnalyzing false s, [ConsoleError; ClearInterval]).

(** [handleAsk], up to [await askSenseBridge(...)]. *)
Definition handleAsk (s : State) : State * list Effect :=
  match currentAnalysis s with
  | None => (s, [])
  | Some analysis =>
      if negb (JS.truthy (JS.trim (userQuery s))) then (s, [])
      else (setIsQuerying true s, [AskSenseBridge (userQuery s) analysis])
  end.

Definition handleAsk_resolved (result : QueryResult) (s : State)
    : State * list Effect :=
  let s := setQueryResult (Some result) s in
  (setIsQuerying false s, []).

Definition handleAsk_rejected (s : State) : State * list Effect :=
  (setIsQuerying false s, [ConsoleError]).

(** ** The browser around the component

    What lives outside the [useState] cells: the promises in flight with
    the closures their continuations captured, the pending [setTimeout]
    callbacks, the wall clock, the identifiers [crypto.randomUUID] has
    handed out so far, and the [MediaRecorder] behind the ref. *)

Record PendingAnalysis := {
  pa_closure : AnalyzeClosure;
  pa_imageBase64 : option JS.str;
  pa_transcript : option JS.str;
  pa_motion : MotionData;
  pa_started : Instant;
  pa_stepIndex : nat
}.

Record PendingQuery := {
  pq_question : JS.str;
  pq_context : ExplorationAnalysisResult
}.

Record World := {
  ui : State;
  now : Instant;
  (** due times of the pending motion resets, oldest first *)
  motionTimers : list Instant;
  analyses : list PendingAnalysis;
  queries : list PendingQuery;
  issued : list UUID;
  (** [Some true]: the ref holds a recorder in state ['recording'] *)
  recorder : option bool;
  micRequests : nat;
  transcriptions : nat;
  (** ghost: when [simulateMotion] last ran, and the reading it set *)
  lastJolt : option (Instant * MotionData)
}.

Definition initialWorld (t0 : Instant) : World :=
  {| ui := initialState; now := t0; motionTimers := [];
     analyses := []; queries := []; issued := [];
     recorder := None; micRequests := 0; transcriptions := 0;
     lastJolt := None |}.

Inductive Event :=
(* the user *)
| Launch
| ClickHeader
| ClickRecord
| ClickSimulate (r : Draws)
| ClickAnalyze
| TypeQuery (text : JS.str)
| ClickAsk
| PressEnter
| ClickAskAnother
(* the environment *)
| ImageLoaded (dataUrl : JS.str)
| MicGranted
| MicDenied
| TranscribeResolves (transcript : JS.str)
| TranscribeRejects
| Advance (ms : Z)
| MotionTimerFires
| IntervalTick (i : nat)
| AnalyzeResolves (i : nat) (result : ExplorationAnalysisResult) (uuid : UUID)
| AnalyzeRejects (i : nat)
| AskResolves (i : nat) (result : QueryResult)
| AskRejects (i : nat).

Definition with_ui (s : State) (w : World) : World :=
  {| ui := s; now := now w; motionTimers := motionTimers w;
     analyses := analyses w; queries := queries w; issued := issued w;
     recorder := recorder w; micRequests := micRequests w;
     transcriptions := transcriptions w; lastJolt := lastJolt w |}.

Definition with_now (t : Instant) (w : World) : World :=
  {| ui := ui w; now := t; motionTimers := motionTimers w;
     analyses := analyses w; queries := queries w; issued := issued w;
     recorder := recorder w; micRequests := micRequests w;
     transcriptions := transcriptions w; lastJolt := lastJolt w |}.

Definition with_motionTimers (l : list Instant) (w : World) : World :=
  {| ui := ui w; now := now w; motionTimers := l;
     analyses := analyses w; queries := queries w; issued := issued w;
     recorder := recorder w; micRequests := micRequests w;
     transcriptions := transcriptions w; lastJolt := lastJolt w |}.

Definition with_analyses (l : list PendingAnalysis) (w : World) : World :=
  {| ui := ui w; now := now w; motionTimers := motionTimers w;
     analyses := l; queries := queries w; issued := issued w;
     recorder := recorder w; micRequests := micRequests w;
     transcriptions := transcriptions w; lastJolt := lastJolt w |}.

Definition with_queries (l : list PendingQuery) (w : World) : World :=
  {| ui := ui w; now := now w; motionTimers := motionTimers w;
     analyses := analyses w; queries := l; issued := issued w;
     recorder := recorder w; micRequests := micRequests w;
     transcriptions := transcriptions w; lastJolt := lastJolt w |}.

Definition with_issued (l : list UUID) (w : World) : World :=
  {| ui := ui w; now := now w; motionTimers := motionTimers w;
     analyses := analyses w; queries := queries w; issued := l;
     recorder := recorder w; micRequests := micRequests w;
     transcriptions := transcriptions w; lastJolt := lastJolt w |}.

Definition with_recorder (r : option bool) (w : World) : World :=
  {| ui := ui w; now := now w; motionTimers := motionTimers w;
     analyses := analyses w; queries := queries w; issued := issued w;
     recorder := r; micRequests := micRequests w;
     transcriptions := transcriptions w; lastJolt := lastJolt w |}.

Definition with_micRequests (n : nat) (w : World) : World :=
  {| ui := ui w; now := now w; motionTimers := motionTimers w;
     analyses := analyses w; queries := queries w; issued := issued w;
     recorder := recorder w; micRequests := n;
     transcriptions := transcriptions w; lastJolt := lastJolt w |}.

Definition with_transcriptions (n : nat) (w : World) : World :=
  {| ui := ui w; now := now w; motionTimers := motionTimers w;
     analyses := analyses w; queries := queries w; issued := issued w;
     recorder := recorder w; micRequests := micRequests w;
     transcriptions := n; lastJolt := lastJolt w |}.

Definition with_lastJolt (j : option (Instant * MotionData)) (w : World)
    : World :=
  {| ui := ui w; now := now w; motionTimers := motionTimers w;
     analyses := analyses w; queries := queries w; issued := issued w;
     recorder := recorder w; micRequests := micRequests w;
     transcriptions := transcriptions w; lastJolt := j |}.

(** [Math.random()] returns a double in [[0,1)]: a fraction whose
    denominator is a power of two. *)
Fixpoint is_pow2 (p : positive) : bool :=
  match p with
  | xH => true
  | xO p => is_pow2 p
  | xI _ => false
  end.

Definition is_random (r : Q) : bool :=
  Qle_bool 0 r && negb (Qle_bool 1 r) && is_pow2 (Qden r).

Definition valid_draws (r : Draws) : bool :=
  is_random (r_ax r) && is_random (r_ay r) && is_random (r_az r)
  && is_random (r_gx r) && is_random (r_gy r) && is_random (r_gz r).

(** The main view is on screen (the landing page replaces all of it). *)
Definition visible (w : World) : bool := negb (showLanding (ui w)).

(** The question field is rendered (no answer is shown) and enabled. *)
Definition input_enabled (w : World) : bool :=
  visible w
  && negb (bool_decide (is_Some (queryResult (ui w))))
  && bool_decide (is_Some (currentAnalysis (ui w))).

(** The send button is rendered and not [disabled]. *)
Definition ask_button_enabled (w : World) : bool :=
  input_enabled w
  && negb (isQuerying (ui w))
  && JS.truthy (JS.trim (userQuery (ui w))).

(** The analyze button is rendered and not [disabled]. *)
Definition analyze_button_enabled (w : World) : bool :=
  visible w && negb (isAnalyzing (ui w)).

(** The requests a handler's effects start. *)
Definition started_analyses (cl : AnalyzeClosure) (t : Instant)
    (effs : list Effect) : list PendingAnalysis :=
  omap (fun e =>
          match e with
          | AnalyzeEnvironment img tr m =>
              Some {| pa_closure := cl; pa_imageBase64 := img;
                      pa_transcript := tr; pa_motion := m;
                      pa_started := t; pa_stepIndex := 0 |}
          | _ => None
          end) effs.

Definition started_queries (effs : list Effect) : list PendingQuery :=
  omap (fun e =>
          match e with
          | AskSenseBridge q ctx =>
              Some {| pq_question := q; pq_context := ctx |}
          | _ => None
          end) effs.

(** A click on the analyze button, or on whatever runs [handleAnalyze]. *)
Definition run_handleAnalyze (w : World) : World :=
  let '(s, effs) := handleAnalyze (ui w) in
  let cl := {| cl_currentFrame := currentFrame (ui w);
               cl_transcribedAudio := transcribedAudio (ui w) |} in
  with_analyses (analyses w ++ started_analyses cl (now w) effs)
    (with_ui s w).

Definition run_handleAsk (w : World) : World :=
  let '(s, effs) := handleAsk (ui w) in
  with_queries (queries w ++ started_queries effs) (with_ui s w).

(** ** One event

    [step w e] is the world after [e], or [None] when [e] cannot happen
    in [w]: the control is not on screen or is disabled, no such promise
    is in flight, the timer is not due, or time would pass a due timer.
    [crypto.randomUUID] never repeats an identifier, and the clock never
    runs backwards. *)

Definition step (w : World) (e : Event) : option World :=
  match e with
  | Launch =>
      if showLanding (ui w) then Some (with_ui (handleLaunch (ui w)) w)
      else None
  | ClickHeader =>
      if visible w then Some (with_ui (setShowLanding true (ui w)) w)
      else None
  | ClickRecord =>
      if visible w then
        if isRecording (ui w) then
          let recording := bool_decide (recorder w = Some true) in
          let '(s, _) := stopRecording recording (ui w) in
          if recording then
            Some (with_transcriptions (S (transcriptions w))
                    (with_recorder (Some false) (with_ui s w)))
          else Some (with_ui s w)
        else
          let '(s, _) := startRecording (ui w) in
          Some (with_micRequests (S (micRequests w)) (with_ui s w))
      else None
  | MicGranted =>
      match micRequests w with
      | S n =>
          let '(s, _) := startRecording_granted (ui w) in
          Some (with_micRequests n (with_recorder (Some true) (with_ui s w)))
      | O => None
      end
  | MicDenied =>
      match micRequests w with
      | S n =>
          Some (with_micRequests n (with_ui (startRecording_denied (ui w)) w))
      | O => None
      end
  | TranscribeResolves t =>
      match transcriptions w with
      | S n => Some (with_transcriptions n (with_ui (onTranscribed t (ui w)) w))
      | O => None
      end
  | TranscribeRejects =>
      match transcriptions w with
      | S n => Some (with_transcriptions n w)
      | O => None
      end
  | ImageLoaded dataUrl =>
      Some (with_ui (handleImageUpload_loaded dataUrl (ui w)) w)
  | ClickSimulate r =>
      if visible w && valid_draws r then
        let '(s, effs) := simulateMotion r (ui w) in
        let dues :=
          omap (fun e => match e with
                         | SetTimeout ms => Some (now w + ms)
                         | _ => None
                         end) effs in
        Some (with_lastJolt (Some (now w, motionData s))
                (with_motionTimers (motionTimers w ++ dues) (with_ui s w)))
      else None
  | Advance ms =>
      if (0 <=? ms) && forallb (fun due => now w + ms <=? due) (motionTimers w)
      then Some (with_now (now w + ms) w)
      else None
  | MotionTimerFires =>
      match motionTimers w with
      | due :: rest =>
          if due <=? now w then
            Some (with_motionTimers rest (with_ui (motionReset (ui w)) w))
          else None
      | [] => None
      end
  | ClickAnalyze =>
      if analyze_button_enabled w then Some (run_handleAnalyze w) else None
  | IntervalTick i =>
      match analyses w !! i with
      | Some p =>
          let '(k, s) := stepInterval_tick (pa_stepIndex p) (ui w) in
          let p' := {| pa_closure := pa_closure p;
                       pa_imageBase64 := pa_imageBase64 p;
                       pa_transcript := pa_transcript p;
                       pa_motion := pa_motion p;
                       pa_started := pa_started p;
                       pa_stepIndex := k |} in
          Some (with_analyses (<[i := p']> (analyses w)) (with_ui s w))
      | None => None
      end
  | AnalyzeResolves i result uuid =>
      match analyses w !! i with
      | Some p =>
          if bool_decide (uuid ∈ issued w) then None
          else
            let '(s, _) :=
              handleAnalyze_resolved (pa_closure p) result uuid (now w)
                (ui w) in
            Some (with_issued (uuid :: issued w)
                    (with_analyses (delete i (analyses w)) (with_ui s w)))
      | None => None
      end
  | AnalyzeRejects i =>
      match analyses w !! i with
      | Some p =>
          let '(s, _) := handleAnalyze_rejected (ui w) in
          Some (with_analyses (delete i (analyses w)) (with_ui s w))
      | None => None
      end
  | TypeQuery text =>
      if input_enabled w then Some (with_ui (setUserQuery text (ui w)) w)
      else None
  | ClickAsk =>
      if ask_button_enabled w then Some (run_handleAsk w) else None
  | PressEnter =>
      if input_enabled w then Some (run_handleAsk w) else None
  | ClickAskAnother =>
      if visible w && bool_decide (is_Some (queryResult (ui w))) then
        Some (with_ui (setQueryResult None (ui w)) w)
      else None
  | AskResolves i result =>
      match queries w !! i with
      | Some _ =>
          let '(s, _) := handleAsk_resolved result (ui w) in
          Some (with_queries (delete i (queries w)) (with_ui s w))
      | None => None
      end
  | AskRejects i =>
      match queries w !! i with
      | Some _ =>
          let '(s, _) := handleAsk_rejected (ui w) in
          Some (with_queries (delete i (queries w)) (with_ui s w))
      | None => None
      end
  end.

(** A run: the events of a session, oldest first. *)
Fixpoint run (w : World) (es : list Event) : option World :=
  match es with
  | [] => Some w
  | e :: es =>
      match step w e with
      | Some w' => run w' es
      | None => None
      end
  end.

(** The worlds a session can be in. The page may load at any instant. *)
Definition reachable (w : World) : Prop :=
  exists t0 es, run (initialWorld t0) es = Some w.

(** ** What the JSX computes from the state *)

(** [a || b] on strings: [a] unless it is empty. *)
Definition or_else (a b : JS.str) : JS.str := if JS.truthy a then a else b.

(** Does [s] begin with [p]? *)
Fixpoint starts_with (p s : JS.str) : bool :=
  match p, s with
  | [], _ => true
  | _ :: _, [] => false
  | a :: p, b :: s => N.eqb a b && starts_with p s
  end.

(** [s.replace(pat, rep)] with a string pattern: the first occurrence of
    [pat] gives way to [rep]; [rep] holds no [$]. *)
Fixpoint replace_first (pat rep s : JS.str) : JS.str :=
  if starts_with pat s then rep ++ drop (length pat) s
  else match s with
       | [] => []
       | c :: r => c :: replace_first pat rep r
       end.

(** The dot of a history row:
    [getSafetyColor(log.safety_score).replace('text-', 'bg-')]. *)
Definition logDotClass (score : JS.number) : JS.str :=
  replace_first (JS.lit "text-") (JS.lit "bg-") (getSafetyColor score).

(** [currentAnalysis.recommended_actions[0] || "Proceed with caution."] *)
Definition nextAction (r : ExplorationAnalysisResult) : JS.str :=
  match recommended_actions r with
  | a :: _ => or_else a (JS.lit "Proceed with caution.")
  | [] => JS.lit "Proceed with caution."
  end.

(** The text of the analyze button. *)
Definition analyzeButtonLabel (s : State) : JS.str :=
  if isAnalyzing s then loadingText s else JS.lit "Analyze Environment".

(** [{error && <div>{error}</div>}]: the banner, when there is one. *)
Definition errorBanner (s : State) : option JS.str :=
  match error s with
  | Some e => if JS.truthy e then Some e else None
  | None => None
  end.

(** [n] runs of the interval callback. *)
Fixpoint ticks (n : nat) (stepIndex : nat) (s : State) : nat * State :=
  match n with
  | O => (stepIndex, s)
  | S n =>
      let '(k, s) := stepInterval_tick stepIndex s in
      ticks n k s
  end.

(** The events that are the user's, through a control of the main view
    or of the landing page. *)
Definition user_event (e : Event) : bool :=
  match e with
  | Launch | ClickHeader | ClickRecord | ClickSimulate _ | ClickAnalyze
  | TypeQuery _ | ClickAsk | PressEnter | ClickAskAnother => true
  | _ => false
  end.

(** The ranges [simulateMotion] draws from, ends included. *)
Definition within (lo hi v : Q) : Prop := (lo <= v /\ v <= hi)%Q.

Definition motion_in_range (m : MotionData) : Prop :=
  within (-4) 4 (x (accel m))
  /\ within (9.81 - 2.5) (9.81 + 2.5) (y (accel m))
  /\ within (-4) 4 (z (accel m))
  /\ within (-1) 1 (x (gyro m))
  /\ within (-1) 1 (y (gyro m))
  /\ within (-1) 1 (z (gyro m)).

(** ** The vocabulary of the properties *)

(** An input is present when the handler's test [!x] is false for it. *)
Definition present (o : option JS.str) : Prop := JS.truthy_opt o = true.

Definition whitespace_only (q : JS.str) : Prop :=
  Forall (fun c => JS.isWhiteSpace c = true) q.



(** Newest first: no entry is older than one behind it. *)
Definition newest_first (l : list ExplorationLogEntry) : Prop :=
  StronglySorted (fun a b => timestamp b <= timestamp a) l.



(** ** Invariants of the running application *)

(** Every history entry carries an identifier [crypto.randomUUID] has
    issued and a time stamp that is not in the future, and the history
    is newest first. *)
Definition log_inv (w : World) : Prop :=
  Forall (fun e => id e ∈ issued w /\ timestamp e <= now w)
    (explorationLog (ui w))
  /\ newest_first (explorationLog (ui w)).

(** A request in flight was started in the past, from a render that had
    an input, and was sent what that render showed. *)
Definition pending_ok (t : Instant) (p : PendingAnalysis) : Prop :=
  pa_started p <= t
  /\ pa_imageBase64 p = imageBase64_of (cl_currentFrame (pa_closure p))
  /\ pa_transcript p = cl_transcribedAudio (pa_closure p)
  /\ (present (cl_currentFrame (pa_closure p))
      \/ present (cl_transcribedAudio (pa_closure p))).

(** [isAnalyzing] counts the analysis requests in flight. *)
Definition analyses_inv (w : World) : Prop :=
  Forall (pending_ok (now w)) (analyses w)
  /\ length (analyses w) = if isAnalyzing (ui w) then 1%nat else 0%nat.




(** [isQuerying] counts the questions in flight. *)
Definition queries_inv (w : World) : Prop :=
  length (queries w) = if isQuerying (ui w) then 1%nat else 0%nat.

(** What the dashboard shows is the result of the newest entry. *)
Definition head_inv (w : World) : Prop :=
  forall r, currentAnalysis (ui w) = Some r ->
    exists e rest,
      explorationLog (ui w) = e :: rest /\ entry_result e = r.

(** The identifiers of the history are the ones issued, newest first,
    and no two are the same. *)
Definition ids_inv (w : World) : Prop :=
  map id (explorationLog (ui w)) = issued w /\ NoDup (issued w).

(** The error is one of the three messages, or there is none. *)
Definition error_inv (w : World) : Prop :=
  error (ui w) = None
  \/ error (ui w) = Some MSG_NO_INPUT
  \/ error (ui w) = Some MSG_ANALYZE_FAILED
  \/ error (ui w) = Some MSG_MIC_DENIED.

(** While a request is in flight the caption is the step its interval
    has reached. *)
Definition caption_inv (w : World) : Prop :=
  forall p, analyses w = [p] ->
    (pa_stepIndex p < length ANALYSIS_STEPS)%nat
    /\ loadingText (ui w) = nth (pa_stepIndex p) ANALYSIS_STEPS [].

(** [isRecording] says whether the recorder behind the ref records. *)
Definition recorder_inv (w : World) : Prop :=
  isRecording (ui w) = bool_decide (recorder w = Some true).

(** The reading is within the ranges of [simulateMotion]. *)
Definition range_inv (w : World) : Prop :=
  motion_in_range (motionData (ui w)).

(** ** Sample data *)

Definition demoResult : ExplorationAnalysisResult :=
  {| environment_type := JS.lit "Alpine meadow";
     terrain_summary := JS.lit "Gentle grass slope";
     location_estimation := JS.lit "Dolomites";
     confidence := JS.Finite 0.8;
     safety_score := JS.Finite 42;
     bio_clues := [JS.lit "gentian"];
     acoustic_clues := [];
     structural_notes := JS.lit "none";
     solo_traveler_advice := JS.lit "Carry water";
     navigation_hint := JS.lit "Follow the ridge";
     recommended_actions := [JS.lit "Rest"] |}.

Definition demoAnswer : QueryResult :=
  {| answer := JS.lit "Yes"; reasoning := JS.lit "Open ground" |}.

Definition demoFrame : JS.str := JS.lit "data:image/png;base64,iVBOR".

Definition demoDraws : Draws :=
  {| r_ax := 3 # 4; r_ay := 1 # 2; r_az := 1 # 8;
     r_gx := 5 # 16; r_gy := 0; r_gz := 1023 # 1024 |}.

(** A session that reaches an analysed image. *)
Definition analysed : list Event :=
  [ Launch; ImageLoaded demoFrame; ClickAnalyze; Advance 40;
    AnalyzeResolves 0 demoResult 1%N ].

(** ... and then has an answer on screen. *)
Definition answered : list Event :=
  analysed ++ [ TypeQuery (JS.lit "Is it safe?"); ClickAsk;
                AskResolves 0 demoAnswer ].

(** ... and then asks twice with the Enter key before any answer. *)
Definition enter_twice : list Event :=
  analysed ++ [ TypeQuery (JS.lit "Is it safe?"); PressEnter; PressEnter ].

(** Two triggers two seconds apart, then the first trigger's timer. *)
Definition two_jolts : list Event :=
  [ Launch; ClickSimulate demoDraws; Advance 2000;
    ClickSimulate demoDraws; Advance 1000; MotionTimerFires ].


Definition world_after (t0 : Instant) (es : list Event) : World :=
  default (initialWorld t0) (run (initialWorld t0) es).

(** A second image arrives while the analysis of the first is in flight. *)
Definition demoFrame2 : JS.str := JS.lit "data:image/jpeg;base64,/9j/4AAQ".

Definition second_image_in_flight : list Event :=
  [ Launch; ImageLoaded demoFrame; ClickAnalyze; Advance 40 ].

(** A question is in flight. *)
Definition asking : list Event :=
  analysed ++ [ TypeQuery (JS.lit "Is it safe?"); ClickAsk ].

(** The microphone was granted and records. *)
Definition recording : list Event := [ Launch; ClickRecord; MicGranted ].

(** * Properties *)

(** ** Safety banding *)

Section Bands.

Local Open Scope Q_scope.

Lemma ge_Finite_true (q k : Q) : k <= q -> JS.ge (JS.Finite q) k = true.
Proof. intros H. simpl. now apply Qle_bool_iff. Qed.

Lemma ge_Finite_false (q k : Q) : q < k -> JS.ge (JS.Finite q) k = false.
Proof.
  intros H. simpl. destruct (Qle_bool k q) eqn:E; [|reflexivity].
  apply Qle_bool_iff in E. exfalso. exact (Qlt_not_le _ _ H E).
Qed.

Lemma band_favorable (q : Q) :
  80 <= q ->
  getSafetyColor (JS.Finite q) = colorOf Favorable
  /\ getSafetyBg (JS.Finite q) = bgOf Favorable.
Proof.
  intros H. unfold getSafetyColor, getSafetyBg.
  rewrite (ge_Finite_true q 80 H). split; reflexivity.
Qed.

Lemma band_cautionary (q : Q) :
  50 <= q -> q < 80 ->
  getSafetyColor (JS.Finite q) = colorOf Cautionary
  /\ getSafetyBg (JS.Finite q) = bgOf Cautionary.
Proof.
  intros Hlo Hhi. unfold getSafetyColor, getSafetyBg.
  rewrite (ge_Finite_false q 80 Hhi), (ge_Finite_true q 50 Hlo).
  split; reflexivity.
Qed.

Lemma band_unfavorable (q : Q) :
  q < 50 ->
  getSafetyColor (JS.Finite q) = colorOf Unfavorable
  /\ getSafetyBg (JS.Finite q) = bgOf Unfavorable.
Proof.
  intros H. unfold getSafetyColor, getSafetyBg.
  assert (H80 : q < 80) by (eapply Qlt_trans; [exact H | reflexivity]).
  rewrite (ge_Finite_false q 80 H80), (ge_Finite_false q 50 H).
  split; reflexivity.
Qed.

(** The class depends on the value of the score only, not on how the
    fraction is written. *)
Lemma band_respects_value (q q' : Q) :
  q == q' ->
  getSafetyColor (JS.Finite q) = getSafetyColor (JS.Finite q')
  /\ getSafetyBg (JS.Finite q) = getSafetyBg (JS.Finite q').
Proof.
  intros E. unfold getSafetyColor, getSafetyBg, JS.ge.
  rewrite !(Qleb_comp _ _ (Qeq_refl _) _ _ E). split; reflexivity.
Qed.

Lemma in_some_band (q : Q) : 0 <= q -> q <= 100 -> exists b, in_band b q.
Proof.
  intros H0 H100.
  destruct (Qlt_le_dec q 50) as [L50|G50].
  - exists Unfavorable. simpl. auto.
  - destruct (Qlt_le_dec q 80) as [L80|G80].
    + exists Cautionary. simpl. auto.
    + exists Favorable. simpl. auto.
Qed.

(** C5. On [[0,100]] the banding is a total function of the score:
    every score lies in a band, a score in [[80,100]] gets the
    favorable classes, one in [[50,80)] the cautionary ones, one in
    [[0,50)] the unfavorable ones, both from [getSafetyColor] and from
    [getSafetyBg], and equal scores get equal classes. *)
Theorem safety_band_on_range (q : Q) :
  0 <= q -> q <= 100 ->
  (exists b, in_band b q)
  /\ (forall b, in_band b q ->
        getSafetyColor (JS.Finite q) = colorOf b
        /\ getSafetyBg (JS.Finite q) = bgOf b)
  /\ (forall q', q == q' ->
        getSafetyColor (JS.Finite q) = getSafetyColor (JS.Finite q')
        /\ getSafetyBg (JS.Finite q) = getSafetyBg (JS.Finite q')).
Proof.
  intros H0 H100. split; [now apply in_some_band|]. split.
  - intros [] [Hlo Hhi].
    + now apply band_favorable.
    + now apply band_cautionary.
    + now apply band_unfavorable.
  - intros q'. apply band_respects_value.
Qed.

Lemma safety_band_on_range_witness :
  (exists b, in_band b 42)
  /\ (forall b, in_band b 42 ->
        getSafetyColor (JS.Finite 42) = colorOf b
        /\ getSafetyBg (JS.Finite 42) = bgOf b)
  /\ (forall q', 42 == q' ->
        getSafetyColor (JS.Finite 42) = getSafetyColor (JS.Finite q')
        /\ getSafetyBg (JS.Finite 42) = getSafetyBg (JS.Finite q')).
Proof.
  apply (safety_band_on_range 42); unfold Qle; simpl; lia.
Defined.

(** The score of the sample result, 42, is below 50: red. *)
Example safety_42 :
  getSafetyColor (safety_score demoResult) = JS.lit "text-red-400".
Proof. reflexivity. Qed.

Example safety_boundaries :
  getSafetyColor (JS.Finite 80) = JS.lit "text-emerald-400"
  /\ getSafetyColor (JS.Finite 79.99) = JS.lit "text-yellow-400"
  /\ getSafetyColor (JS.Finite 50) = JS.lit "text-yellow-400"
  /\ getSafetyColor (JS.Finite 49.99) = JS.lit "text-red-400"
  /\ getSafetyBg (JS.Finite 100) = JS.lit "bg-emerald-500/10 border-emerald-500/20"
  /\ getSafetyBg (JS.Finite 0) = JS.lit "bg-red-500/10 border-red-500/20".
Proof. repeat split; reflexivity. Qed.

(** C10. Neither function checks a range: every score below 50, the
    negative ones too, gets the unfavorable classes; every score from
    80 up, beyond 100 too, gets the favorable ones; and every [number]
    whatsoever gets the classes of one band. *)
Theorem safety_band_unbounded (score : JS.number) :
  (exists b, getSafetyColor score = colorOf b /\ getSafetyBg score = bgOf b)
  /\ (forall q, score = JS.Finite q -> q < 50 ->
        getSafetyColor score = colorOf Unfavorable
        /\ getSafetyBg score = bgOf Unfavorable)
  /\ (forall q, score = JS.Finite q -> 80 <= q ->
        getSafetyColor score = colorOf Favorable
        /\ getSafetyBg score = bgOf Favorable).
Proof.
  split; [|split].
  - destruct score as [q| | |].
    + destruct (Qlt_le_dec q 50) as [L50|G50].
      * exists Unfavorable. now apply band_unfavorable.
      * destruct (Qlt_le_dec q 80) as [L80|G80].
        -- exists Cautionary. now apply band_cautionary.
        -- exists Favorable. now apply band_favorable.
    + exists Favorable. split; reflexivity.
    + exists Unfavorable. split; reflexivity.
    + exists Unfavorable. split; reflexivity.
  - intros q -> H. now apply band_unfavorable.
  - intros q -> H. now apply band_favorable.
Qed.

Lemma safety_band_unbounded_witness :
  (getSafetyColor (JS.Finite (-5)) = colorOf Unfavorable
   /\ getSafetyBg (JS.Finite (-5)) = bgOf Unfavorable)
  /\ (getSafetyColor (JS.Finite 250) = colorOf Favorable
      /\ getSafetyBg (JS.Finite 250) = bgOf Favorable).
Proof.
  split.
  - apply (proj1 (proj2 (safety_band_unbounded (JS.Finite (-5)))) (-5));
      [reflexivity | unfold Qlt; simpl; lia].
  - apply (proj2 (proj2 (safety_band_unbounded (JS.Finite 250))) 250);
      [reflexivity | unfold Qle; simpl; lia].
Defined.

End Bands.

(** ** [trim] and the empty question *)

Lemma trimStart_whitespace (q : JS.str) :
  whitespace_only q -> JS.trimStart q = [].
Proof.
  induction 1 as [|c q Hc _ IH]; simpl; [reflexivity|].
  now rewrite Hc.
Qed.

Lemma trimStart_nil_inv (q : JS.str) :
  JS.trimStart q = [] -> whitespace_only q.
Proof.
  induction q as [|c q IH]; simpl; intros H; [constructor|].
  destruct (JS.isWhiteSpace c) eqn:Hc; [|discriminate].
  constructor; [exact Hc | exact (IH H)].
Qed.

(** What [trimStart] leaves is empty or starts with a visible character. *)
Lemma trimStart_head (q : JS.str) :
  match JS.trimStart q with
  | [] => True
  | c :: _ => JS.isWhiteSpace c = false
  end.
Proof.
  induction q as [|c q IH]; simpl; [exact I|].
  destruct (JS.isWhiteSpace c) eqn:Hc; [exact IH | exact Hc].
Qed.

(** The guard [!userQuery.trim()] holds exactly for the questions made
    of white space only, the empty one among them. *)
Lemma trim_falsy_iff (q : JS.str) :
  JS.truthy (JS.trim q) = false <-> whitespace_only q.
Proof.
  split.
  - intros H.
    assert (E : JS.trim q = []) by (destruct (JS.trim q); [reflexivity | discriminate]).
    unfold JS.trim, JS.trimEnd in E.
    apply (f_equal (@rev _)) in E. rewrite rev_involutive in E. simpl in E.
    apply trimStart_nil_inv in E.
    pose proof (trimStart_head q) as Hh.
    destruct (JS.trimStart q) as [|c r] eqn:Et.
    + now apply trimStart_nil_inv.
    + exfalso. unfold whitespace_only in E.
      rewrite List.Forall_forall in E.
      assert (Hc : JS.isWhiteSpace c = true).
      { apply E. apply in_rev. rewrite rev_involutive. now left. }
      congruence.
  - intros H. unfold JS.trim. now rewrite (trimStart_whitespace q H).
Qed.

Example trim_examples :
  JS.trim (JS.lit "  hi there ") = JS.lit "hi there"
  /\ JS.trim (JS.lit "   ") = []
  /\ JS.trim [0x09; 0xA0; 0x2003; 0xFEFF; 0x0A]%N = []
  /\ JS.trim [] = [].
Proof. repeat split; reflexivity. Qed.

Example split_examples :
  imageBase64_of (Some demoFrame) = Some (JS.lit "iVBOR")
  /\ imageBase64_of (Some (JS.lit "no comma")) = None
  /\ imageBase64_of (Some (JS.lit "a,b,c")) = Some (JS.lit "b")
  /\ imageBase64_of (Some []) = None
  /\ imageBase64_of None = None.
Proof. repeat split; reflexivity. Qed.

(** ** The handlers, one at a time *)

Lemma world_eta (w : World) :
  with_queries (queries w ++ []) (with_ui (ui w) w) = w.
Proof. destruct w. unfold with_queries, with_ui. simpl. now rewrite app_nil_r. Qed.

(** C7. With a question that is empty or white space only, or with no
    analysis on screen, [handleAsk] returns the state it was given and
    performs no effect, so no [askSenseBridge] call; the world around it
    is unchanged too. *)
Theorem handleAsk_noop (w : World) :
  whitespace_only (userQuery (ui w)) \/ currentAnalysis (ui w) = None ->
  handleAsk (ui w) = (ui w, []) /\ run_handleAsk w = w.
Proof.
  intros H.
  assert (E : handleAsk (ui w) = (ui w, [])).
  { unfold handleAsk. destruct (currentAnalysis (ui w)) as [a|]; [|reflexivity].
    destruct H as [H|H]; [|discriminate].
    apply trim_falsy_iff in H. now rewrite H. }
  split; [exact E|].
  unfold run_handleAsk. rewrite E. simpl. apply world_eta.
Qed.

Lemma handleAsk_noop_witness :
  let w := with_ui (setUserQuery (JS.lit "  ") (ui (world_after 0 analysed)))
             (world_after 0 analysed) in
  handleAsk (ui w) = (ui w, []) /\ run_handleAsk w = w.
Proof.
  apply (handleAsk_noop
           (with_ui (setUserQuery (JS.lit "  ") (ui (world_after 0 analysed)))
              (world_after 0 analysed))).
  left. repeat constructor.
Defined.

(** Otherwise it does call the service, with the question as typed. *)
Lemma handleAsk_calls (s : State) (a : ExplorationAnalysisResult) :
  currentAnalysis s = Some a ->
  ~ whitespace_only (userQuery s) ->
  handleAsk s = (setIsQuerying true s, [AskSenseBridge (userQuery s) a]).
Proof.
  intros Ha Hq. unfold handleAsk. rewrite Ha.
  destruct (JS.truthy (JS.trim (userQuery s))) eqn:E; [reflexivity|].
  now apply trim_falsy_iff in E.
Qed.

(** C1. With neither an image nor a transcript, [handleAnalyze] performs
    no effect at all, so no [analyzeEnvironment] call and no request in
    flight afterwards; it sets the error to the literal message and
    nothing else, the history included. *)
Theorem handleAnalyze_without_input (w : World) :
  ~ present (currentFrame (ui w)) ->
  ~ present (transcribedAudio (ui w)) ->
  handleAnalyze (ui w)
  = (setError
       (Some (JS.lit "Please provide at least Visual or Audio input to analyze."))
       (ui w), [])
  /\ analyses (run_handleAnalyze w) = analyses w
  /\ error (ui (run_handleAnalyze w))
     = Some (JS.lit "Please provide at least Visual or Audio input to analyze.")
  /\ explorationLog (ui (run_handleAnalyze w)) = explorationLog (ui w).
Proof.
  unfold present. intros Hf Ht.
  apply not_true_is_false in Hf. apply not_true_is_false in Ht.
  assert (E : handleAnalyze (ui w) = (setError (Some MSG_NO_INPUT) (ui w), [])).
  { unfold handleAnalyze. now rewrite Hf, Ht. }
  split; [exact E|].
  unfold run_handleAnalyze. rewrite E. simpl.
  split; [apply app_nil_r|]. split; reflexivity.
Qed.

Lemma handleAnalyze_without_input_witness :
  let w := world_after 0 [Launch] in
  handleAnalyze (ui w)
  = (setError
       (Some (JS.lit "Please provide at least Visual or Audio input to analyze."))
       (ui w), [])
  /\ analyses (run_handleAnalyze w) = analyses w
  /\ error (ui (run_handleAnalyze w))
     = Some (JS.lit "Please provide at least Visual or Audio input to analyze.")
  /\ explorationLog (ui (run_handleAnalyze w)) = explorationLog (ui w).
Proof.
  apply (handleAnalyze_without_input (world_after 0 [Launch]));
    vm_compute; discriminate.
Defined.

(** The click itself, in the running application. *)
Example analyze_click_without_input :
  option_map (fun w => (error (ui w), explorationLog (ui w), analyses w))
    (run (initialWorld 0) [Launch; ClickAnalyze])
  = Some (Some MSG_NO_INPUT, [], []).
Proof. reflexivity. Qed.

(** ** What one event does to each part of the world *)

Ltac case_matches H :=
  repeat match type of H with
         | context [match ?x with _ => _ end] => destruct x eqn:?
         end.

Ltac handler_inv :=
  repeat match goal with
         | H : _ = (_, _) |- _ =>
             unfold stopRecording, startRecording, startRecording_granted,
               simulateMotion, handleAnalyze, handleAnalyze_resolved,
               handleAnalyze_rejected, handleAsk, handleAsk_resolved,
               handleAsk_rejected, stepInterval_tick in H;
             case_matches H; injection H as <- <-
         end.

(** From [H : step w e = Some w'], for a given constructor [e]: one goal
    per path through [step] and the handler it runs. *)
Ltac step_inv H :=
  unfold step, run_handleAnalyze, run_handleAsk in H;
  case_matches H; try discriminate H; injection H as <-; handler_inv.

Lemma step_now (w : World) (e : Event) (w' : World) :
  step w e = Some w' ->
  now w' = match e with Advance ms => now w + ms | _ => now w end.
Proof. intros H. destruct e; step_inv H; reflexivity. Qed.

Lemma step_now_le (w : World) (e : Event) (w' : World) :
  step w e = Some w' -> now w <= now w'.
Proof.
  intros H. rewrite (step_now _ _ _ H).
  destruct e; try lia.
  unfold step in H. destruct (0 <=? ms) eqn:E; [lia | discriminate].
Qed.




Lemma step_issued (w : World) (e : Event) (w' : World) :
  step w e = Some w' ->
  issued w'
  = match e with
    | AnalyzeResolves _ _ uuid => uuid :: issued w
    | _ => issued w
    end.
Proof. intros H. destruct e; step_inv H; reflexivity. Qed.

(** The only writer of the history is the success path of
    [handleAnalyze], and it conses. *)
Lemma step_explorationLog (w : World) (e : Event) (w' : World) :
  step w e = Some w' ->
  explorationLog (ui w')
  = match e with
    | AnalyzeResolves i result uuid =>
        match analyses w !! i with
        | Some p =>
            {| entry_result := result; id := uuid; timestamp := now w;
               imageFrameUrl := cl_currentFrame (pa_closure p);
               audioTranscript := cl_transcribedAudio (pa_closure p) |}
            :: explorationLog (ui w)
        | None => explorationLog (ui w)
        end
    | _ => explorationLog (ui w)
    end.
Proof.
  intros H. destruct e; step_inv H; reflexivity.
Qed.

(** ** Runs *)



(** A property of the initial worlds that every event preserves holds in
    every reachable world. *)
Lemma reachable_ind (P : World -> Prop) :
  (forall t0, P (initialWorld t0)) ->
  (forall w e w', P w -> step w e = Some w' -> P w') ->
  forall w, reachable w -> P w.
Proof.
  intros Hinit Hstep w (t0 & es & H).
  pose proof (Hinit t0) as H0. revert H0 H.
  generalize (initialWorld t0) as w0.
  induction es as [|e es IH]; intros w0 H0 H; simpl in H.
  - injection H as E. now rewrite <- E.
  - destruct (step w0 e) as [w1|] eqn:E; [|discriminate].
    exact (IH w1 (Hstep _ _ _ H0 E) H).
Qed.

(** ** The invariants hold *)


Lemma log_inv_step (w : World) (e : Event) (w' : World) :
  log_inv w -> step w e = Some w' -> log_inv w'.
Proof.
  intros [Hall Hsorted] H. unfold log_inv.
  pose proof (step_now_le _ _ _ H) as Hle.
  rewrite (step_explorationLog _ _ _ H), (step_issued _ _ _ H).
  assert (Hkeep :
    Forall (fun x => id x ∈ issued w /\ timestamp x <= now w')
      (explorationLog (ui w))).
  { eapply Forall_impl; [exact Hall|]. simpl. intros x [Hi Ht]. split; [exact Hi | lia]. }
  destruct e; try (split; [exact Hkeep | exact Hsorted]).
  destruct (analyses w !! i) as [p|]; [|split; [|exact Hsorted]].
  - split.
    + constructor; simpl.
      * split; [left | exact Hle].
      * eapply Forall_impl; [exact Hkeep|]. simpl. intros x [Hi Ht].
        split; [now right | exact Ht].
    + constructor; [exact Hsorted|].
      eapply Forall_impl; [exact Hall|]. simpl. intros x [_ Ht]. exact Ht.
  - eapply Forall_impl; [exact Hkeep|]. simpl. intros x [Hi Ht].
    split; [now right | exact Ht].
Qed.

Lemma pending_ok_later (t t' : Instant) (p : PendingAnalysis) :
  t <= t' -> pending_ok t p -> pending_ok t' p.
Proof. intros Hle (H1 & H2). split; [lia | exact H2]. Qed.

Lemma analyses_inv_step (w : World) (e : Event) (w' : World) :
  analyses_inv w -> step w e = Some w' -> analyses_inv w'.
Proof.
  intros [Hall Hlen] H. unfold analyses_inv.
  pose proof (step_now_le _ _ _ H) as Hle.
  assert (Hkeep : Forall (pending_ok (now w')) (analyses w)).
  { eapply Forall_impl; [exact Hall|]. intros p. now apply pending_ok_later. }
  destruct e; step_inv H; simpl in *;
    try (split; [exact Hkeep | exact Hlen]).
  - (* ClickAnalyze, no input *)
    rewrite app_nil_r. split; [exact Hkeep | exact Hlen].
  - (* ClickAnalyze, request sent *)
    unfold analyze_button_enabled in *.
    destruct (isAnalyzing (ui w)); [now rewrite andb_false_r in *|].
    destruct (analyses w); [|discriminate]. simpl. split; [|reflexivity].
    constructor; [|constructor]. unfold pending_ok, present. simpl.
    split; [lia|]. split; [reflexivity|]. split; [reflexivity|].
    destruct (JS.truthy_opt (currentFrame (ui w))); [now left|].
    destruct (JS.truthy_opt (transcribedAudio (ui w))); [now right|].
    discriminate.
  - (* IntervalTick *)
    split; [|now rewrite length_insert].
    apply Forall_insert; [exact Hkeep|].
    rewrite List.Forall_forall in Hall.
    apply (Hall p). apply list_elem_of_In. eapply list_elem_of_lookup_2. eassumption.
  - (* AnalyzeResolves *)
    split; [now apply Forall_delete|].
    rewrite length_delete by eauto.
    destruct (isAnalyzing (ui w)); lia.
  - (* AnalyzeRejects *)
    split; [now apply Forall_delete|].
    rewrite length_delete by eauto.
    destruct (isAnalyzing (ui w)); lia.
Qed.

Lemma log_inv_reachable (w : World) : reachable w -> log_inv w.
Proof.
  apply reachable_ind.
  - intros t0. split; constructor.
  - apply log_inv_step.
Qed.

Lemma analyses_inv_reachable (w : World) : reachable w -> analyses_inv w.
Proof.
  apply reachable_ind.
  - intros t0. split; [constructor | reflexivity].
  - apply analyses_inv_step.
Qed.

(** ** Analysis: success *)

(** X20. A click on the enabled analyze button with an input present
    starts exactly one request: it sets the one-and-a-half-second
    interval and calls the service with the image payload of the frame
    on screen, the transcript on screen and the motion reading of that
    moment, and the continuation keeps that frame and transcript. *)
Lemma analyze_click_sends (w : World) :
  analyze_button_enabled w = true ->
  present (currentFrame (ui w)) \/ present (transcribedAudio (ui w)) ->
  exists p,
    step w ClickAnalyze = Some (run_handleAnalyze w)
    /\ analyses (run_handleAnalyze w) = analyses w ++ [p]
    /\ snd (handleAnalyze (ui w))
       = [ SetInterval 1500;
           AnalyzeEnvironment (pa_imageBase64 p) (pa_transcript p)
             (pa_motion p) ]
    /\ pa_imageBase64 p = imageBase64_of (currentFrame (ui w))
    /\ pa_transcript p = transcribedAudio (ui w)
    /\ pa_motion p = motionData (ui w)
    /\ pa_started p = now w
    /\ cl_currentFrame (pa_closure p) = currentFrame (ui w)
    /\ cl_transcribedAudio (pa_closure p) = transcribedAudio (ui w).
Proof.
  intros Hen Hin. unfold step. rewrite Hen.
  assert (G : negb (JS.truthy_opt (currentFrame (ui w)))
              && negb (JS.truthy_opt (transcribedAudio (ui w))) = false).
  { unfold present in Hin. destruct Hin as [-> | ->]; [reflexivity|].
    apply andb_false_r. }
  unfold run_handleAnalyze, handleAnalyze. rewrite G. simpl.
  eexists. repeat split; reflexivity.
Qed.

(** C2. A request in flight that is fulfilled with [result] makes
    [result] the current analysis and conses exactly one entry onto the
    history: it holds [result], its identifier is the one
    [crypto.randomUUID] just returned and no older entry has it, its time
    stamp is not earlier than the start of the request, and it records
    the image and the transcript of the render that sent the request,
    which are what the service was sent; one of the two was present.
    [crypto.randomUUID] is taken not to repeat an identifier. *)
Theorem analysis_success (w : World) (i : nat) (p : PendingAnalysis)
    (result : ExplorationAnalysisResult) (uuid : UUID) :
  reachable w ->
  analyses w !! i = Some p ->
  uuid ∉ issued w ->
  exists w' entry,
    step w (AnalyzeResolves i result uuid) = Some w'
    /\ currentAnalysis (ui w') = Some result
    /\ explorationLog (ui w') = entry :: explorationLog (ui w)
    /\ entry_result entry = result
    /\ id entry = uuid
    /\ Forall (fun old => id old <> id entry) (explorationLog (ui w))
    /\ pa_started p <= timestamp entry
    /\ imageFrameUrl entry = cl_currentFrame (pa_closure p)
    /\ audioTranscript entry = pa_transcript p
    /\ pa_imageBase64 p = imageBase64_of (imageFrameUrl entry)
    /\ (present (imageFrameUrl entry) \/ present (audioTranscript entry)).
Proof.
  intros Hr Hp Hfresh.
  destruct (log_inv_reachable w Hr) as [Hlog _].
  destruct (analyses_inv_reachable w Hr) as [Hpend _].
  assert (Hok : pending_ok (now w) p).
  { rewrite List.Forall_forall in Hpend. apply Hpend.
    apply list_elem_of_In. eapply list_elem_of_lookup_2. exact Hp. }
  destruct Hok as (Hstart & Himg & Htr & Hpres).
  unfold step. rewrite Hp. rewrite (bool_decide_eq_false_2 _ Hfresh). simpl.
  eexists. eexists. split; [reflexivity|]. simpl.
  repeat split; try reflexivity; try assumption.
  - eapply Forall_impl; [exact Hlog|]. simpl. intros old [Hin _] E.
    apply Hfresh. now rewrite <- E.
  - now symmetry.
Qed.

Lemma analysis_success_witness :
  exists w' entry,
    step (world_after 0 (firstn 4 analysed)) (AnalyzeResolves 0 demoResult 1%N)
    = Some w'
    /\ currentAnalysis (ui w') = Some demoResult
    /\ explorationLog (ui w')
       = entry :: explorationLog (ui (world_after 0 (firstn 4 analysed)))
    /\ entry_result entry = demoResult
    /\ id entry = 1%N
    /\ Forall (fun old => id old <> id entry)
         (explorationLog (ui (world_after 0 (firstn 4 analysed))))
    /\ 0 <= timestamp entry
    /\ imageFrameUrl entry = Some demoFrame
    /\ audioTranscript entry = None
    /\ Some (JS.lit "iVBOR") = imageBase64_of (imageFrameUrl entry)
    /\ (present (imageFrameUrl entry) \/ present (audioTranscript entry)).
Proof.
  apply (analysis_success (world_after 0 (firstn 4 analysed)) 0
           {| pa_closure := {| cl_currentFrame := Some demoFrame;
                               cl_transcribedAudio := None |};
              pa_imageBase64 := Some (JS.lit "iVBOR");
              pa_transcript := None;
              pa_motion := INITIAL_MOTION;
              pa_started := 0;
              pa_stepIndex := 0 |}
           demoResult 1%N).
  - exists 0, (firstn 4 analysed). vm_compute. reflexivity.
  - vm_compute. reflexivity.
  - vm_compute. inversion 1.
Defined.

(** The spec's scenario: an image, no transcript, the baseline reading. *)
Example analysis_scenario :
  snd (handleAnalyze (ui (world_after 0 [Launch; ImageLoaded demoFrame])))
  = [SetInterval 1500;
     AnalyzeEnvironment (Some (JS.lit "iVBOR")) None INITIAL_MOTION]
  /\ option_map (fun w => (length (explorationLog (ui w)),
                           map timestamp (explorationLog (ui w)),
                           currentAnalysis (ui w), isAnalyzing (ui w)))
       (run (initialWorld 0) analysed)
     = Some (1%nat, [40], Some demoResult, false).
Proof. split; reflexivity. Qed.

(** ** Analysis: failure *)

(** The rejected promise, taken alone: the banner and [isAnalyzing]. *)
Lemma analyze_reject_frame (w : World) (i : nat) (p : PendingAnalysis) :
  analyses w !! i = Some p ->
  step w (AnalyzeRejects i)
  = Some (with_analyses (delete i (analyses w))
            (with_ui (setIsAnalyzing false
                        (setError (Some MSG_ANALYZE_FAILED) (ui w))) w)).
Proof. intros Hp. unfold step. now rewrite Hp. Qed.




(** ** The history *)





(** Two analyses in a row: the later entry is the head. *)
Example history_two_entries :
  option_map (fun w => map (fun e => (id e, timestamp e))
                         (explorationLog (ui w)))
    (run (initialWorld 0)
       (analysed ++ [ Advance 5; ClickAnalyze; Advance 60;
                      AnalyzeResolves 0 demoResult 2%N ]))
  = Some [(2%N, 105); (1%N, 40)].
Proof. reflexivity. Qed.

(** ** Questions *)

Lemma setIsQuerying_undo (s : State) :
  isQuerying s = false -> setIsQuerying false (setIsQuerying true s) = s.
Proof. destruct s. simpl. intros ->. reflexivity. Qed.

Lemma handleAsk_keeps (s : State) :
  queryResult (fst (handleAsk s)) = queryResult s
  /\ error (fst (handleAsk s)) = error s.
Proof.
  unfold handleAsk. destruct (currentAnalysis s); [|now split].
  destruct (negb (JS.truthy (JS.trim (userQuery s)))); now split.
Qed.

(** C8. A question whose request fails: the rejection writes
    [isQuerying] and nothing else, so the answer panel and the error
    banner are what they were, and its only effect is the console log;
    sending the question did not touch them either, and a question sent
    with no other in flight leaves, once failed, the very state it was
    sent from. *)
Theorem ask_failure_is_silent (w : World) (i : nat) (p : PendingQuery) :
  queries w !! i = Some p ->
  (exists w',
     step w (AskRejects i) = Some w'
     /\ ui w' = setIsQuerying false (ui w)
     /\ queryResult (ui w') = queryResult (ui w)
     /\ error (ui w') = error (ui w))
  /\ snd (handleAsk_rejected (ui w)) = [ConsoleError]
  /\ (forall s,
        queryResult (fst (handleAsk s)) = queryResult s
        /\ error (fst (handleAsk s)) = error s
        /\ (isQuerying s = false ->
            fst (handleAsk_rejected (fst (handleAsk s))) = s)).
Proof.
  intros Hp. split; [|split; [reflexivity|]].
  - unfold step. rewrite Hp. simpl. eexists. repeat split; reflexivity.
  - intros s. destruct (handleAsk_keeps s) as [Hq He].
    split; [exact Hq|]. split; [exact He|]. intros Hf.
    unfold handleAsk. destruct (currentAnalysis s).
    + destruct (negb (JS.truthy (JS.trim (userQuery s)))); simpl.
      * destruct s. simpl in *. now subst.
      * now apply setIsQuerying_undo.
    + simpl. destruct s. simpl in *. now subst.
Qed.

Lemma ask_failure_is_silent_witness :
  (exists w',
     step (world_after 0 (firstn 7 answered)) (AskRejects 0) = Some w'
     /\ ui w' = setIsQuerying false (ui (world_after 0 (firstn 7 answered)))
     /\ queryResult (ui w')
        = queryResult (ui (world_after 0 (firstn 7 answered)))
     /\ error (ui w') = error (ui (world_after 0 (firstn 7 answered))))
  /\ snd (handleAsk_rejected (ui (world_after 0 (firstn 7 answered))))
     = [ConsoleError]
  /\ (forall s,
        queryResult (fst (handleAsk s)) = queryResult s
        /\ error (fst (handleAsk s)) = error s
        /\ (isQuerying s = false ->
            fst (handleAsk_rejected (fst (handleAsk s))) = s)).
Proof.
  apply (ask_failure_is_silent (world_after 0 (firstn 7 answered)) 0
           {| pq_question := JS.lit "Is it safe?";
              pq_context := demoResult |}).
  vm_compute. reflexivity.
Defined.

Example ask_then_fail :
  option_map ui (run (initialWorld 0) (firstn 7 answered ++ [AskRejects 0]))
  = option_map ui (run (initialWorld 0) (firstn 6 answered)).
Proof. vm_compute. reflexivity. Qed.

(** ** Requests in flight *)

(** X18. While an analysis is in flight the analyze button is disabled:
    a click on it does nothing, and there is never a second analysis
    request in flight. *)
Lemma one_analysis_in_flight (w : World) :
  reachable w ->
  (length (analyses w) <= 1)%nat
  /\ (analyses w <> [] -> step w ClickAnalyze = None).
Proof.
  intros Hr. destruct (analyses_inv_reachable w Hr) as [_ Hlen].
  split.
  - destruct (isAnalyzing (ui w)); lia.
  - intros Hne. unfold step, analyze_button_enabled.
    destruct (isAnalyzing (ui w)); [now rewrite andb_false_r|].
    destruct (analyses w); [contradiction | discriminate].
Qed.

Lemma queries_inv_step (w : World) (e : Event) (w' : World) :
  queries_inv w -> e <> PressEnter -> step w e = Some w' -> queries_inv w'.
Proof.
  unfold queries_inv. intros Hlen Hne H.
  destruct e; try contradiction; step_inv H; simpl in *;
    rewrite ?app_nil_r; try exact Hlen.
  - (* ClickAsk, sent *)
    unfold ask_button_enabled in *.
    destruct (isQuerying (ui w)); [now rewrite andb_false_r in *|].
    destruct (queries w); [reflexivity | discriminate].
  - (* AskResolves *)
    rewrite length_delete by eauto. destruct (isQuerying (ui w)); lia.
  - (* AskRejects *)
    rewrite length_delete by eauto. destruct (isQuerying (ui w)); lia.
Qed.

(** X19. By the send button alone there are never two questions in
    flight: in a session without the Enter key at most one is, and while
    it is the button is disabled. *)
Lemma one_query_in_flight_by_button (t0 : Instant) (es : list Event)
    (w : World) :
  ~ In PressEnter es ->
  run (initialWorld t0) es = Some w ->
  (length (queries w) <= 1)%nat
  /\ (queries w <> [] -> step w ClickAsk = None).
Proof.
  intros Hno H.
  assert (Hinv : queries_inv w).
  { assert (H0 : queries_inv (initialWorld t0)) by reflexivity.
    revert H0 H Hno. generalize (initialWorld t0) as w0.
    induction es as [|e es IH]; intros w0 H0 H Hno; simpl in H.
    - injection H as E. now rewrite <- E.
    - destruct (step w0 e) as [w1|] eqn:E; [|discriminate].
      apply (IH w1); [|exact H|].
      + apply (queries_inv_step w0 e w1 H0); [|exact E].
        intros ->. apply Hno. now left.
      + intros Hin. apply Hno. now right. }
  unfold queries_inv in Hinv. split.
  - destruct (isQuerying (ui w)); lia.
  - intros Hne. unfold step, ask_button_enabled.
    destruct (isQuerying (ui w)).
    + now rewrite andb_false_r.
    + destruct (queries w); [contradiction | discriminate].
Qed.

(** The Enter key sends the question whether or not one is in flight:
    neither the field's [disabled] nor [handleAsk] reads [isQuerying]. *)
Lemma enter_ignores_isQuerying (w : World) (a : ExplorationAnalysisResult) :
  input_enabled w = true ->
  currentAnalysis (ui w) = Some a ->
  ~ whitespace_only (userQuery (ui w)) ->
  exists w',
    step w PressEnter = Some w'
    /\ queries w'
       = queries w ++ [{| pq_question := userQuery (ui w); pq_context := a |}]
    /\ input_enabled w' = true.
Proof.
  intros Hen Ha Hq. unfold step. rewrite Hen.
  unfold run_handleAsk. rewrite (handleAsk_calls _ _ Ha Hq). simpl.
  eexists. split; [reflexivity|]. split; [reflexivity|]. exact Hen.
Qed.

(** C9. The Enter key runs [handleAsk] whatever [isQuerying] says:
    pressed twice before an answer arrives, it leaves two
    [askSenseBridge] requests in flight, with the send button disabled
    all the while. *)
Theorem enter_twice_two_queries :
  option_map
    (fun w => (length (queries w), ask_button_enabled w, input_enabled w,
               length (analyses w)))
    (run (initialWorld 0) enter_twice)
  = Some (2%nat, false, true, 0%nat).
Proof. vm_compute. reflexivity. Qed.

(** ** The motion simulator *)










Example two_jolts_trace :
  option_map (fun w => (motionData (ui w), now w, motionTimers w))
    (run (initialWorld 0) (firstn 5 two_jolts))
  = Some (newMotion demoDraws, 3000, [3000; 5000])
  /\ option_map (fun w => (motionData (ui w), now w, motionTimers w))
       (run (initialWorld 0) two_jolts)
     = Some (INITIAL_MOTION, 3000, [5000]).
Proof. split; vm_compute; reflexivity. Qed.




(** * More of [App.tsx] *)

(** ** What is sent *)

(** X1. [handleAsk] calls the service exactly when there is an analysis
    and the question holds a character that [trim] keeps; it then makes
    one call, with the question as typed, white space around it
    included, and the analysis on screen. *)
Theorem handleAsk_sends_iff (s : State) :
  (snd (handleAsk s) <> []
   <-> (exists a, currentAnalysis s = Some a)
       /\ ~ whitespace_only (userQuery s))
  /\ (forall a, currentAnalysis s = Some a ->
        ~ whitespace_only (userQuery s) ->
        handleAsk s
        = (setIsQuerying true s, [AskSenseBridge (userQuery s) a])).
Proof.
  split; [|intros a; apply handleAsk_calls].
  split.
  - intros Hne. destruct (currentAnalysis s) as [a|] eqn:Ha.
    + split; [now exists a|]. intros Hw. apply Hne.
      unfold handleAsk. rewrite Ha.
      apply trim_falsy_iff in Hw. now rewrite Hw.
    + exfalso. apply Hne. unfold handleAsk. now rewrite Ha.
  - intros [[a Ha] Hq]. now rewrite (handleAsk_calls s a Ha Hq).
Qed.

Example ask_sent_untrimmed :
  snd (handleAsk (setUserQuery (JS.lit "  is it safe ")
                    (ui (world_after 0 analysed))))
  = [AskSenseBridge (JS.lit "  is it safe ") demoResult].
Proof. vm_compute. reflexivity. Qed.

Lemma split_no_comma (f : JS.str) :
  ~ In 0x2C%N f -> JS.split_comma_1 f = None.
Proof.
  induction f as [|c f IH]; simpl; intros Hn; [reflexivity|].
  destruct (N.eqb_spec c 0x2C) as [->|_].
  - exfalso. apply Hn. now left.
  - apply IH. intros Hin. apply Hn. now right.
Qed.

Lemma upto_comma_app (payload rest : JS.str) :
  ~ In 0x2C%N payload ->
  JS.upto_comma payload = payload
  /\ JS.upto_comma (payload ++ 0x2C%N :: rest) = payload.
Proof.
  induction payload as [|c l IH]; simpl; intros Hn; [now split|].
  destruct (N.eqb_spec c 0x2C) as [->|_].
  - exfalso. apply Hn. now left.
  - destruct IH as [E1 E2]; [intros Hin; apply Hn; now right|].
    now rewrite E1, E2.
Qed.

Lemma split_at_first_comma (pre tl : JS.str) :
  ~ In 0x2C%N pre ->
  JS.split_comma_1 (pre ++ 0x2C%N :: tl) = Some (JS.upto_comma tl).
Proof.
  induction pre as [|c pre IH]; simpl; intros Hn; [reflexivity|].
  destruct (N.eqb_spec c 0x2C) as [->|_].
  - exfalso. apply Hn. now left.
  - apply IH. intros Hin. apply Hn. now right.
Qed.

(** X2. What [handleAnalyze] sends for the image: of a frame
    [pre,payload] it is [payload], the text after the first comma; a
    second comma cuts the payload short; and a frame that is not empty
    but has no comma passes the input check and is sent as no image at
    all. *)
Theorem image_payload (s : State) (pre payload rest : JS.str) :
  ~ In 0x2C%N pre ->
  ~ In 0x2C%N payload ->
  imageBase64_of (Some (pre ++ 0x2C%N :: payload)) = Some payload
  /\ imageBase64_of (Some (pre ++ 0x2C%N :: payload ++ 0x2C%N :: rest))
     = Some payload
  /\ (pre <> [] ->
      snd (handleAnalyze (setCurrentFrame (Some pre) s))
      = [ SetInterval 1500;
          AnalyzeEnvironment None (transcribedAudio s) (motionData s) ]).
Proof.
  intros Hpre Hpay.
  destruct (upto_comma_app payload rest Hpay) as [E1 E2].
  assert (T : forall tl, JS.truthy (pre ++ 0x2C%N :: tl) = true)
    by (intros tl; destruct pre; reflexivity).
  split; [|split].
  - unfold imageBase64_of. rewrite T, split_at_first_comma by exact Hpre.
    now rewrite E1.
  - unfold imageBase64_of. rewrite T, split_at_first_comma by exact Hpre.
    now rewrite E2.
  - intros Hne. unfold handleAnalyze. simpl.
    destruct pre as [|c pre']; [contradiction|]. simpl.
    pose proof (split_no_comma _ Hpre) as E. simpl in E. now rewrite E.
Qed.

Lemma image_payload_witness :
  imageBase64_of (Some (JS.lit "data:image/png;base64" ++ 0x2C%N :: JS.lit "iVBOR"))
  = Some (JS.lit "iVBOR")
  /\ imageBase64_of
       (Some (JS.lit "data:image/png;base64" ++ 0x2C%N :: JS.lit "iVBOR"
              ++ 0x2C%N :: JS.lit "tail"))
     = Some (JS.lit "iVBOR")
  /\ (JS.lit "data:image/png;base64" <> [] ->
      snd (handleAnalyze
             (setCurrentFrame (Some (JS.lit "data:image/png;base64"))
                initialState))
      = [ SetInterval 1500;
          AnalyzeEnvironment None (transcribedAudio initialState)
            (motionData initialState) ]).
Proof.
  apply (image_payload initialState (JS.lit "data:image/png;base64")
           (JS.lit "iVBOR") (JS.lit "tail"));
    vm_compute; intuition discriminate.
Defined.

(** X3. A transcript that came back empty counts as no audio: with no
    image either, [handleAnalyze] stops at the input check, sends
    nothing and shows the message. *)
Theorem empty_transcript_is_no_input (s : State) :
  ~ present (currentFrame s) ->
  handleAnalyze (onTranscribed [] s)
  = (setError (Some MSG_NO_INPUT) (onTranscribed [] s), []).
Proof.
  unfold present. intros Hf. apply not_true_is_false in Hf.
  unfold handleAnalyze. simpl. now rewrite Hf.
Qed.

Lemma empty_transcript_is_no_input_witness :
  handleAnalyze (onTranscribed [] initialState)
  = (setError (Some MSG_NO_INPUT) (onTranscribed [] initialState), []).
Proof.
  apply (empty_transcript_is_no_input initialState).
  vm_compute. discriminate.
Defined.

(** ** What is rendered *)

Lemma starts_with_app (p s : JS.str) : starts_with p (p ++ s) = true.
Proof.
  induction p as [|a p IH]; simpl; [reflexivity|].
  now rewrite N.eqb_refl, IH.
Qed.

Lemma replace_first_prefix (pat rep s : JS.str) :
  replace_first pat rep (pat ++ s) = rep ++ s.
Proof.
  assert (U : forall t, replace_first pat rep t
              = if starts_with pat t then rep ++ drop (length pat) t
                else match t with
                     | [] => []
                     | c :: r => c :: replace_first pat rep r
                     end) by (intros t; destruct t; reflexivity).
  rewrite U, starts_with_app. now rewrite drop_app_length.
Qed.

(** X4. The dot of a history row: [replace] swaps the leading [text-]
    of the colour class for [bg-] and touches nothing after it, so the
    dot is emerald from 80 up, yellow from 50 up and red below, as the
    score's text colour is. *)
Theorem log_dot_follows_band (score : JS.number) :
  (forall rest,
     replace_first (JS.lit "text-") (JS.lit "bg-") (JS.lit "text-" ++ rest)
     = JS.lit "bg-" ++ rest)
  /\ getSafetyColor score = JS.lit "text-" ++ drop 5 (getSafetyColor score)
  /\ logDotClass score
     = (if JS.ge score 80 then JS.lit "bg-emerald-400"
        else if JS.ge score 50 then JS.lit "bg-yellow-400"
        else JS.lit "bg-red-400").
Proof.
  split; [|split].
  - intros rest. apply replace_first_prefix.
  - unfold getSafetyColor.
    destruct (JS.ge score 80); [reflexivity|].
    destruct (JS.ge score 50); reflexivity.
  - unfold logDotClass, getSafetyColor.
    destruct (JS.ge score 80); [reflexivity|].
    destruct (JS.ge score 50); reflexivity.
Qed.

(** X5. The next action on the dashboard is never blank: it is the
    first recommended action when there is one and it is not empty, and
    "Proceed with caution." otherwise. *)
Theorem next_action_never_blank (r : ExplorationAnalysisResult) :
  JS.truthy (nextAction r) = true
  /\ (forall a rest, recommended_actions r = a :: rest -> a <> [] ->
        nextAction r = a)
  /\ (forall rest, recommended_actions r = [] :: rest ->
        nextAction r = JS.lit "Proceed with caution.")
  /\ (recommended_actions r = [] ->
      nextAction r = JS.lit "Proceed with caution.").
Proof.
  unfold nextAction, or_else.
  split; [|split; [|split]].
  - destruct (recommended_actions r) as [|a rest]; [reflexivity|].
    destruct a; reflexivity.
  - intros a rest -> Ha. destruct a; [contradiction | reflexivity].
  - intros rest ->. reflexivity.
  - intros ->. reflexivity.
Qed.

(** ** The status caption *)

Lemma ticks_spec (n k : nat) (s : State) :
  (k < length ANALYSIS_STEPS)%nat ->
  ticks (S n) k s
  = (((k + S n) mod length ANALYSIS_STEPS)%nat,
     setLoadingText
       (nth ((k + S n) mod length ANALYSIS_STEPS) ANALYSIS_STEPS []) s).
Proof.
  revert k s. induction n as [|n IH]; intros k s Hk.
  - reflexivity.
  - change (ticks (S (S n)) k s)
      with (ticks (S n) ((k + 1) mod length ANALYSIS_STEPS)
              (setLoadingText
                 (nth ((k + 1) mod length ANALYSIS_STEPS) ANALYSIS_STEPS [])
                 s)).
    rewrite IH by (apply Nat.mod_upper_bound; discriminate).
    rewrite Nat.Div0.add_mod_idemp_l.
    replace (k + 1 + S n)%nat with (k + S (S n))%nat by lia.
    reflexivity.
Qed.

(** X6. The captions cycle in the order of the list, with period six:
    [n] ticks after the caption at index [k] the caption is the one at
    index [(k + n) mod 6], always one of the six; six ticks later it is
    the same again; and from the first caption every one comes up. *)
Theorem caption_cycle (n k : nat) (s : State) :
  (k < 6)%nat ->
  fst (ticks (S n) k s) = ((k + S n) mod 6)%nat
  /\ loadingText (snd (ticks (S n) k s))
     = nth ((k + S n) mod 6) ANALYSIS_STEPS []
  /\ In (loadingText (snd (ticks (S n) k s))) ANALYSIS_STEPS
  /\ ticks (S n + 6) k s = ticks (S n) k s
  /\ (forall j, (j < 6)%nat ->
        exists m, loadingText (snd (ticks (S m) 0 s))
                  = nth j ANALYSIS_STEPS []).
Proof.
  intros Hk.
  assert (Hk' : (k < length ANALYSIS_STEPS)%nat) by exact Hk.
  rewrite (ticks_spec n k s Hk'). change (length ANALYSIS_STEPS) with 6%nat.
  split; [reflexivity|]. split; [reflexivity|]. split; [|split].
  - apply nth_In. apply Nat.mod_upper_bound. discriminate.
  - replace (S n + 6)%nat with (S (n + 6)) by lia.
    rewrite (ticks_spec (n + 6) k s Hk').
    change (length ANALYSIS_STEPS) with 6%nat.
    replace (k + S (n + 6))%nat with (k + S n + 1 * 6)%nat by lia.
    now rewrite Nat.Div0.mod_add.
  - intros j Hj. exists (j + 5)%nat.
    rewrite (ticks_spec (j + 5) 0 s) by (simpl; lia).
    change (length ANALYSIS_STEPS) with 6%nat.
    replace (0 + S (j + 5))%nat with (j + 1 * 6)%nat by lia.
    rewrite Nat.Div0.mod_add, (Nat.mod_small j 6 Hj). reflexivity.
Qed.

Lemma caption_cycle_witness :
  fst (ticks 8 4 initialState) = 0%nat
  /\ loadingText (snd (ticks 8 4 initialState))
     = nth 0 ANALYSIS_STEPS []
  /\ In (loadingText (snd (ticks 8 4 initialState))) ANALYSIS_STEPS
  /\ ticks (8 + 6) 4 initialState = ticks 8 4 initialState
  /\ (forall j, (j < 6)%nat ->
        exists m, loadingText (snd (ticks (S m) 0 initialState))
                  = nth j ANALYSIS_STEPS []).
Proof.
  apply (caption_cycle 7 4 initialState). lia.
Defined.

Lemma caption_inv_step (w : World) (e : Event) (w' : World) :
  analyses_inv w -> caption_inv w -> step w e = Some w' -> caption_inv w'.
Proof.
  intros [_ Hlen] Hc H. unfold caption_inv in *.
  destruct e;
    try (step_inv H; simpl in *; rewrite ?app_nil_r; exact Hc).
  - (* ClickAnalyze *)
    step_inv H; simpl in *; rewrite ?app_nil_r; try exact Hc.
    unfold analyze_button_enabled in *.
    destruct (isAnalyzing (ui w)); [now rewrite andb_false_r in *|].
    destruct (analyses w); [|discriminate].
    intros p [= <-]. simpl. split; [lia | reflexivity].
  - (* IntervalTick *)
    unfold step in H.
    destruct (analyses w) as [|p0 [|p1 l]] eqn:Ea;
      [now destruct i | | destruct (isAnalyzing (ui w)); discriminate].
    destruct i as [|i]; [|now destruct i].
    cbn [lookup list_lookup] in H. unfold stepInterval_tick in H.
    injection H as <-.
    intros q Hq. cbn in Hq. injection Hq as <-.
    cbn [pa_stepIndex ui with_analyses with_ui loadingText setLoadingText].
    split; [|reflexivity].
    change ((pa_stepIndex p0 + 1) mod length ANALYSIS_STEPS
            < length ANALYSIS_STEPS)%nat.
    apply Nat.mod_upper_bound. discriminate.
  - (* AnalyzeResolves *)
    step_inv H. simpl in *.
    intros q Hq. apply (f_equal length) in Hq.
    rewrite length_delete in Hq by eauto. simpl in Hq.
    destruct (isAnalyzing (ui w)); lia.
  - (* AnalyzeRejects *)
    step_inv H. simpl in *.
    intros q Hq. apply (f_equal length) in Hq.
    rewrite length_delete in Hq by eauto. simpl in Hq.
    destruct (isAnalyzing (ui w)); lia.
Qed.

Lemma caption_reachable (w : World) :
  reachable w -> analyses_inv w /\ caption_inv w.
Proof.
  apply (reachable_ind (fun w => analyses_inv w /\ caption_inv w)).
  - intros t0. split; [split; [constructor | reflexivity]|].
    intros p Hp. discriminate.
  - intros w0 e w1 [Ha Hc] H.
    split; [exact (analyses_inv_step _ _ _ Ha H)
           | exact (caption_inv_step _ _ _ Ha Hc H)].
Qed.

(** X7. The analyze button never reads "Initializing...": while a
    request is in flight its text is the caption the interval has
    reached, one of the six, and the next tick moves it one on; with no
    request in flight it reads "Analyze Environment" and no tick can
    come, the interval being cleared on either outcome. *)
Theorem caption_while_analyzing (w : World) :
  reachable w ->
  In (analyzeButtonLabel (ui w))
     (JS.lit "Analyze Environment" :: ANALYSIS_STEPS)
  /\ (isAnalyzing (ui w) = true ->
      exists p w',
        analyses w = [p]
        /\ analyzeButtonLabel (ui w) = nth (pa_stepIndex p) ANALYSIS_STEPS []
        /\ step w (IntervalTick 0) = Some w'
        /\ analyzeButtonLabel (ui w')
           = nth ((pa_stepIndex p + 1) mod 6) ANALYSIS_STEPS [])
  /\ (isAnalyzing (ui w) = false ->
      analyzeButtonLabel (ui w) = JS.lit "Analyze Environment"
      /\ forall i, step w (IntervalTick i) = None).
Proof.
  intros Hr. destruct (caption_reachable w Hr) as [[_ Hlen] Hc].
  unfold analyzeButtonLabel.
  destruct (isAnalyzing (ui w)) eqn:Ean.
  - destruct (analyses w) as [|p [|p1 l]] eqn:Ea; try discriminate.
    destruct (Hc p Ea) as [Hk Hcap].
    split; [|split; [|discriminate]].
    + right. rewrite Hcap. now apply nth_In.
    + intros _. exists p. eexists. split; [reflexivity|].
      split; [exact Hcap|].
      unfold step. rewrite Ea. cbn [lookup list_lookup].
      unfold stepInterval_tick. split; [reflexivity|].
      cbn [ui with_analyses with_ui isAnalyzing setLoadingText loadingText].
      rewrite Ean. reflexivity.
  - split; [now left|]. split; [discriminate|]. intros _.
    split; [reflexivity|]. intros i. unfold step.
    destruct (analyses w); [now destruct i | discriminate].
Qed.

Lemma in_flight_reachable :
  reachable (world_after 0 second_image_in_flight).
Proof. exists 0, second_image_in_flight. vm_compute. reflexivity. Qed.

Lemma caption_while_analyzing_witness :
  In (analyzeButtonLabel (ui (world_after 0 second_image_in_flight)))
     (JS.lit "Analyze Environment" :: ANALYSIS_STEPS)
  /\ (isAnalyzing (ui (world_after 0 second_image_in_flight)) = true ->
      exists p w',
        analyses (world_after 0 second_image_in_flight) = [p]
        /\ analyzeButtonLabel (ui (world_after 0 second_image_in_flight))
           = nth (pa_stepIndex p) ANALYSIS_STEPS []
        /\ step (world_after 0 second_image_in_flight) (IntervalTick 0)
           = Some w'
        /\ analyzeButtonLabel (ui w')
           = nth ((pa_stepIndex p + 1) mod 6) ANALYSIS_STEPS [])
  /\ (isAnalyzing (ui (world_after 0 second_image_in_flight)) = false ->
      analyzeButtonLabel (ui (world_after 0 second_image_in_flight))
      = JS.lit "Analyze Environment"
      /\ forall i,
           step (world_after 0 second_image_in_flight) (IntervalTick i)
           = None).
Proof.
  exact (caption_while_analyzing (world_after 0 second_image_in_flight)
           in_flight_reachable).
Defined.

Example caption_after_ticks :
  option_map (fun w => analyzeButtonLabel (ui w))
    (run (initialWorld 0)
       (second_image_in_flight
        ++ [IntervalTick 0; IntervalTick 0; IntervalTick 0]))
  = Some (JS.lit "Triangulating Geo-Location...").
Proof. vm_compute. reflexivity. Qed.

(** ** The dashboard and the history *)

Lemma head_inv_step (w : World) (e : Event) (w' : World) :
  head_inv w -> step w e = Some w' -> head_inv w'.
Proof.
  intros Hh H. unfold head_inv in *.
  destruct e; step_inv H; simpl in *; try exact Hh; try discriminate;
    try (intros r Hr; apply Hh; congruence).
  intros r [= <-]. eauto.
Qed.

Lemma step_currentAnalysis (w : World) (e : Event) (w' : World) :
  step w e = Some w' ->
  currentAnalysis (ui w')
  = match e with
    | AnalyzeResolves _ result _ => Some result
    | ImageLoaded _ => None
    | _ => currentAnalysis (ui w)
    end.
Proof. intros H. destruct e; step_inv H; simpl; congruence. Qed.

(** X8. What the dashboard shows is always the newest entry of the
    history: when there is a current analysis, the history is not empty
    and its head holds that very result. Only a fulfilled analysis sets
    the current analysis and only a loaded image takes it away; the
    image leaves the history as it is. *)
Theorem dashboard_is_newest_entry (w : World) :
  reachable w ->
  (forall r, currentAnalysis (ui w) = Some r ->
     exists e rest,
       explorationLog (ui w) = e :: rest /\ entry_result e = r)
  /\ (forall e w', step w e = Some w' ->
        currentAnalysis (ui w')
        = match e with
          | AnalyzeResolves _ result _ => Some result
          | ImageLoaded _ => None
          | _ => currentAnalysis (ui w)
          end)
  /\ (forall d w', step w (ImageLoaded d) = Some w' ->
        explorationLog (ui w') = explorationLog (ui w)).
Proof.
  intros Hr. split; [|split].
  - revert w Hr. apply (reachable_ind head_inv).
    + intros t0 r Hr. discriminate.
    + apply head_inv_step.
  - intros e w'. apply step_currentAnalysis.
  - intros d w' H. injection H as <-. reflexivity.
Qed.

Lemma analysed_reachable : reachable (world_after 0 analysed).
Proof. exists 0, analysed. vm_compute. reflexivity. Qed.

Lemma dashboard_is_newest_entry_witness :
  exists e rest,
    explorationLog (ui (world_after 0 analysed)) = e :: rest
    /\ entry_result e = demoResult.
Proof.
  apply (proj1 (dashboard_is_newest_entry (world_after 0 analysed)
                  analysed_reachable) demoResult).
  vm_compute. reflexivity.
Defined.

Lemma ids_inv_step (w : World) (e : Event) (w' : World) :
  ids_inv w -> step w e = Some w' -> ids_inv w'.
Proof.
  intros [Hmap Hnd] H. unfold ids_inv.
  rewrite (step_explorationLog _ _ _ H), (step_issued _ _ _ H).
  destruct e; try (split; [exact Hmap | exact Hnd]).
  unfold step in H.
  destruct (analyses w !! i) as [p|]; [|discriminate].
  destruct (bool_decide (uuid ∈ issued w)) eqn:Ed; [discriminate|].
  apply bool_decide_eq_false in Ed.
  split; [simpl; now rewrite Hmap|].
  constructor; [|exact Hnd].
  intros Hin. apply Ed. now apply list_elem_of_In.
Qed.

(** X9. The identifiers of the history, which React uses as row keys,
    are pairwise distinct, and they are exactly the identifiers issued,
    newest first: each fulfilled analysis made one entry.
    [crypto.randomUUID] is taken not to repeat an identifier. *)
Theorem history_keys_distinct (w : World) :
  reachable w ->
  NoDup (map id (explorationLog (ui w)))
  /\ map id (explorationLog (ui w)) = issued w.
Proof.
  intros Hr.
  assert (H : ids_inv w).
  { revert w Hr. apply (reachable_ind ids_inv).
    - intros t0. split; [reflexivity | constructor].
    - apply ids_inv_step. }
  destruct H as [Hmap Hnd]. rewrite Hmap. split; [exact Hnd | reflexivity].
Qed.

Lemma history_keys_distinct_witness :
  NoDup (map id (explorationLog (ui (world_after 0 analysed))))
  /\ map id (explorationLog (ui (world_after 0 analysed)))
     = issued (world_after 0 analysed).
Proof.
  exact (history_keys_distinct (world_after 0 analysed) analysed_reachable).
Defined.

(** ** The error banner *)

Lemma step_error (w : World) (e : Event) (w' : World) :
  step w e = Some w' ->
  error (ui w')
  = match e with
    | ClickAnalyze =>
        if JS.truthy_opt (currentFrame (ui w))
           || JS.truthy_opt (transcribedAudio (ui w))
        then None else Some MSG_NO_INPUT
    | AnalyzeRejects _ => Some MSG_ANALYZE_FAILED
    | MicDenied => Some MSG_MIC_DENIED
    | _ => error (ui w)
    end.
Proof.
  intros H. destruct e; step_inv H; simpl; try reflexivity.
  - destruct (JS.truthy_opt (currentFrame (ui w)));
      destruct (JS.truthy_opt (transcribedAudio (ui w)));
      try discriminate; reflexivity.
  - destruct (JS.truthy_opt (currentFrame (ui w)));
      destruct (JS.truthy_opt (transcribedAudio (ui w)));
      try discriminate; reflexivity.
Qed.

(** X10. The error is one of the three messages of the file or absent,
    so the banner shows exactly when an error is set. Three things set
    it (an analyze click with no input, a failed analysis, a refused
    microphone) and one thing clears it, an analyze click with input;
    no other event touches it: a new image, a new transcript, an answer
    or a fulfilled analysis leaves a message where it is. *)
Theorem error_banner_lifecycle (w : World) :
  reachable w ->
  In (error (ui w))
     [ None; Some MSG_NO_INPUT; Some MSG_ANALYZE_FAILED; Some MSG_MIC_DENIED ]
  /\ errorBanner (ui w) = error (ui w)
  /\ (forall e w', step w e = Some w' ->
        error (ui w')
        = match e with
          | ClickAnalyze =>
              if JS.truthy_opt (currentFrame (ui w))
                 || JS.truthy_opt (transcribedAudio (ui w))
              then None else Some MSG_NO_INPUT
          | AnalyzeRejects _ => Some MSG_ANALYZE_FAILED
          | MicDenied => Some MSG_MIC_DENIED
          | _ => error (ui w)
          end).
Proof.
  intros Hr.
  assert (H : error_inv w).
  { revert w Hr. apply (reachable_ind error_inv).
    - intros t0. now left.
    - intros w0 e w1 H0 H. unfold error_inv.
      rewrite (step_error _ _ _ H).
      destruct e; try exact H0; auto.
      destruct (JS.truthy_opt (currentFrame (ui w0))
                || JS.truthy_opt (transcribedAudio (ui w0))); auto. }
  split; [|split; [|intros e w'; apply step_error]].
  - destruct H as [-> | [-> | [-> | ->]]]; simpl; auto.
  - unfold errorBanner.
    destruct H as [-> | [-> | [-> | ->]]]; reflexivity.
Qed.

Lemma error_banner_lifecycle_witness :
  errorBanner (ui (world_after 0 [Launch; ClickAnalyze; ImageLoaded demoFrame]))
  = error (ui (world_after 0 [Launch; ClickAnalyze; ImageLoaded demoFrame])).
Proof.
  apply (proj1 (proj2 (error_banner_lifecycle
                         (world_after 0 [Launch; ClickAnalyze;
                                         ImageLoaded demoFrame])
                         (ex_intro _ 0
                            (ex_intro _ [Launch; ClickAnalyze;
                                         ImageLoaded demoFrame] eq_refl))))).
Defined.

(** The message of an analyze click with no input outlives the upload. *)
Example error_outlives_upload :
  option_map (fun w => errorBanner (ui w))
    (run (initialWorld 0) [Launch; ClickAnalyze; ImageLoaded demoFrame])
  = Some (Some MSG_NO_INPUT).
Proof. vm_compute. reflexivity. Qed.

(** ** Recording *)

Lemma recorder_inv_step (w : World) (e : Event) (w' : World) :
  recorder_inv w -> step w e = Some w' -> recorder_inv w'.
Proof.
  unfold recorder_inv. intros Hi H.
  destruct e; step_inv H; simpl in *; try exact Hi; try reflexivity;
    try congruence.
Qed.

(** X11. [isRecording] is true exactly while the recorder behind the
    ref records. So the Stop button always finds a recorder to stop: a
    click on it ends the recording, turns [isRecording] off and hands
    one clip to transcription; the guard of [stopRecording] never turns
    a click away. A click on Record changes no state until the
    microphone answers. *)
Theorem stop_always_stops (w : World) :
  reachable w ->
  (isRecording (ui w) = true <-> recorder w = Some true)
  /\ (visible w = true -> isRecording (ui w) = true ->
      exists w',
        step w ClickRecord = Some w'
        /\ isRecording (ui w') = false
        /\ recorder w' = Some false
        /\ transcriptions w' = S (transcriptions w))
  /\ (visible w = true -> isRecording (ui w) = false ->
      exists w',
        step w ClickRecord = Some w'
        /\ ui w' = ui w
        /\ micRequests w' = S (micRequests w)).
Proof.
  intros Hr.
  assert (Hi : recorder_inv w).
  { revert w Hr. apply (reachable_ind recorder_inv).
    - intros t0. reflexivity.
    - apply recorder_inv_step. }
  unfold recorder_inv in Hi. split; [|split].
  - rewrite Hi. split.
    + intros H. now apply bool_decide_eq_true in H.
    + intros H. now apply bool_decide_eq_true.
  - intros Hv Hrec. unfold step. rewrite Hv, Hrec.
    rewrite Hi in Hrec. rewrite Hrec. simpl.
    eexists. split; [reflexivity|]. repeat split.
  - intros Hv Hrec. unfold step. rewrite Hv, Hrec. simpl.
    eexists. split; [reflexivity|]. split; reflexivity.
Qed.

Lemma recording_reachable : reachable (world_after 0 recording).
Proof. exists 0, recording. vm_compute. reflexivity. Qed.

Lemma stop_always_stops_witness :
  exists w',
    step (world_after 0 recording) ClickRecord = Some w'
    /\ isRecording (ui w') = false
    /\ recorder w' = Some false
    /\ transcriptions w' = S (transcriptions (world_after 0 recording)).
Proof.
  apply (proj1 (proj2 (stop_always_stops (world_after 0 recording)
                         recording_reachable)));
    vm_compute; reflexivity.
Defined.

(** ** The reading *)






(** ** The landing page *)

(** X13. The landing page and back loses nothing: a click on the header
    and then on the launch button gives back the very state the click
    on the header found, requests in flight and timers included. While
    the landing page is up no control of the main view can be used, and
    the launch button is there only then. *)
Theorem landing_round_trip (w : World) :
  (visible w = true ->
   exists w1, step w ClickHeader = Some w1 /\ step w1 Launch = Some w)
  /\ (visible w = false ->
      forall e, user_event e = true -> e <> Launch -> step w e = None)
  /\ (visible w = true -> step w Launch = None).
Proof.
  unfold visible. split; [|split].
  - intros Hv. apply negb_true_iff in Hv.
    unfold step, visible. rewrite Hv. simpl.
    eexists. split; [reflexivity|]. simpl.
    destruct w as [s ? ? ? ? ? ? ? ? ?]. destruct s. simpl in *.
    subst. reflexivity.
  - intros Hv e He Hne.
    destruct e; try discriminate He;
      try (exfalso; apply Hne; reflexivity);
      unfold step, ask_button_enabled, analyze_button_enabled,
        input_enabled, visible in *;
      rewrite Hv; reflexivity.
  - intros Hv. apply negb_true_iff in Hv. unfold step. now rewrite Hv.
Qed.

Lemma landing_round_trip_witness :
  exists w1,
    step (world_after 0 asking) ClickHeader = Some w1
    /\ step w1 Launch = Some (world_after 0 asking).
Proof.
  apply (proj1 (landing_round_trip (world_after 0 asking))).
  vm_compute. reflexivity.
Defined.

(** ** Responses that come late *)

(** X14. No request is cancelled. When a new image is loaded while an
    analysis is in flight and the analysis is then fulfilled, its result
    becomes the current analysis beside the new image, and the entry it
    adds records the image the request was made from, not the one on
    screen. *)
Theorem late_analysis_is_applied (w : World) (i : nat)
    (p : PendingAnalysis) (d : JS.str)
    (result : ExplorationAnalysisResult) (uuid : UUID) :
  analyses w !! i = Some p ->
  uuid ∉ issued w ->
  exists w1 w2 entry,
    step w (ImageLoaded d) = Some w1
    /\ currentAnalysis (ui w1) = None
    /\ step w1 (AnalyzeResolves i result uuid) = Some w2
    /\ currentFrame (ui w2) = Some d
    /\ currentAnalysis (ui w2) = Some result
    /\ explorationLog (ui w2) = entry :: explorationLog (ui w)
    /\ entry_result entry = result
    /\ imageFrameUrl entry = cl_currentFrame (pa_closure p).
Proof.
  intros Hp Hfresh.
  eexists. eexists. eexists. split; [reflexivity|]. split; [reflexivity|].
  unfold step. simpl. rewrite Hp, (bool_decide_eq_false_2 _ Hfresh). simpl.
  split; [reflexivity|]. repeat split.
Qed.

Lemma late_analysis_is_applied_witness :
  exists w1 w2 entry,
    step (world_after 0 second_image_in_flight) (ImageLoaded demoFrame2)
    = Some w1
    /\ currentAnalysis (ui w1) = None
    /\ step w1 (AnalyzeResolves 0 demoResult 1%N) = Some w2
    /\ currentFrame (ui w2) = Some demoFrame2
    /\ currentAnalysis (ui w2) = Some demoResult
    /\ explorationLog (ui w2)
       = entry :: explorationLog (ui (world_after 0 second_image_in_flight))
    /\ entry_result entry = demoResult
    /\ imageFrameUrl entry = Some demoFrame.
Proof.
  apply (late_analysis_is_applied (world_after 0 second_image_in_flight) 0
           {| pa_closure := {| cl_currentFrame := Some demoFrame;
                               cl_transcribedAudio := None |};
              pa_imageBase64 := Some (JS.lit "iVBOR");
              pa_transcript := None;
              pa_motion := INITIAL_MOTION;
              pa_started := 0;
              pa_stepIndex := 0 |}
           demoFrame2 demoResult 1%N).
  - vm_compute. reflexivity.
  - vm_compute. inversion 1.
Defined.

(** X15. An answer that comes late is shown all the same. When a new
    image is loaded while a question is in flight, the analysis and the
    answer panel are cleared; the answer, once it arrives, fills the
    panel again although there is no analysis on screen, and the
    question field is gone with it. *)
Theorem late_answer_is_shown (w : World) (i : nat) (p : PendingQuery)
    (d : JS.str) (result : QueryResult) :
  queries w !! i = Some p ->
  exists w1 w2,
    step w (ImageLoaded d) = Some w1
    /\ queryResult (ui w1) = None
    /\ step w1 (AskResolves i result) = Some w2
    /\ currentAnalysis (ui w2) = None
    /\ queryResult (ui w2) = Some result
    /\ input_enabled w2 = false.
Proof.
  intros Hp. eexists. eexists. split; [reflexivity|]. split; [reflexivity|].
  unfold step. simpl. rewrite Hp. simpl.
  split; [reflexivity|]. split; [reflexivity|]. split; [reflexivity|].
  unfold input_enabled. simpl. apply andb_false_r.
Qed.

Lemma late_answer_is_shown_witness :
  exists w1 w2,
    step (world_after 0 asking) (ImageLoaded demoFrame2) = Some w1
    /\ queryResult (ui w1) = None
    /\ step w1 (AskResolves 0 demoAnswer) = Some w2
    /\ currentAnalysis (ui w2) = None
    /\ queryResult (ui w2) = Some demoAnswer
    /\ input_enabled w2 = false.
Proof.
  apply (late_answer_is_shown (world_after 0 asking) 0
           {| pq_question := JS.lit "Is it safe?";
              pq_context := demoResult |}
           demoFrame2 demoAnswer).
  vm_compute. reflexivity.
Defined.

(** ** The question field *)


Lemma step_userQuery (w : World) (e : Event) (w' : World) :
  step w e = Some w' ->
  userQuery (ui w')
  = match e with TypeQuery t => t | _ => userQuery (ui w) end.
Proof. intros H. destruct e; step_inv H; reflexivity. Qed.

(** X17. Nothing but typing changes the question: sending it, its
    answer or its failure, an analysis or a new image leave the text in
    the field. After an answer and a click on "Ask another question" the
    field holds the question that was just answered. *)
Theorem question_text_persists (w : World) :
  (forall e w', step w e = Some w' ->
     userQuery (ui w')
     = match e with TypeQuery t => t | _ => userQuery (ui w) end)
  /\ (forall i result w1 w2,
        step w (AskResolves i result) = Some w1 ->
        step w1 ClickAskAnother = Some w2 ->
        userQuery (ui w2) = userQuery (ui w)
        /\ queryResult (ui w2) = None).
Proof.
  split; [intros e w'; apply step_userQuery|].
  intros i result w1 w2 H1 H2.
  rewrite (step_userQuery _ _ _ H2), (step_userQuery _ _ _ H1).
  split; [reflexivity|]. step_inv H2. reflexivity.
Qed.

Example question_after_answer :
  option_map (fun w => (userQuery (ui w), ask_button_enabled w))
    (run (initialWorld 0) (answered ++ [ClickAskAnother]))
  = Some (JS.lit "Is it safe?", true).
Proof. vm_compute. reflexivity. Qed.

(** ** Sessions that show the three request lemmas at work *)

Lemma one_analysis_in_flight_witness :
  (length (analyses (world_after 0%Z second_image_in_flight)) <= 1)%nat
  /\ (analyses (world_after 0 second_image_in_flight) <> [] ->
      step (world_after 0 second_image_in_flight) ClickAnalyze = None).
Proof.
  exact (one_analysis_in_flight (world_after 0 second_image_in_flight)
           in_flight_reachable).
Defined.

Lemma one_query_in_flight_by_button_witness :
  (length (queries (world_after 0%Z asking)) <= 1)%nat
  /\ (queries (world_after 0 asking) <> [] ->
      step (world_after 0 asking) ClickAsk = None).
Proof.
  apply (one_query_in_flight_by_button 0 asking (world_after 0 asking)).
  - vm_compute. intuition discriminate.
  - vm_compute. reflexivity.
Defined.

Lemma analyze_click_sends_witness :
  exists p,
    step (world_after 0 [Launch; ImageLoaded demoFrame]) ClickAnalyze
    = Some (run_handleAnalyze (world_after 0 [Launch; ImageLoaded demoFrame]))
    /\ analyses (run_handleAnalyze
                   (world_after 0 [Launch; ImageLoaded demoFrame]))
       = analyses (world_after 0 [Launch; ImageLoaded demoFrame]) ++ [p]
    /\ snd (handleAnalyze (ui (world_after 0 [Launch; ImageLoaded demoFrame])))
       = [ SetInterval 1500;
           AnalyzeEnvironment (pa_imageBase64 p) (pa_transcript p)
             (pa_motion p) ]
    /\ pa_imageBase64 p
       = imageBase64_of
           (currentFrame (ui (world_after 0 [Launch; ImageLoaded demoFrame])))
    /\ pa_transcript p
       = transcribedAudio (ui (world_after 0 [Launch; ImageLoaded demoFrame]))
    /\ pa_motion p
       = motionData (ui (world_after 0 [Launch; ImageLoaded demoFrame]))
    /\ pa_started p = now (world_after 0 [Launch; ImageLoaded demoFrame])
    /\ cl_currentFrame (pa_closure p)
       = currentFrame (ui (world_after 0 [Launch; ImageLoaded demoFrame]))
    /\ cl_transcribedAudio (pa_closure p)
       = transcribedAudio (ui (world_after 0 [Launch; ImageLoaded demoFrame])).
Proof.
  apply (analyze_click_sends (world_after 0 [Launch; ImageLoaded demoFrame])).
  - vm_compute. reflexivity.
  - left. vm_compute. reflexivity.
Defined.
